(** * lec-core alerting: AlertManager and FailureDetector

    A shallow embedding of [packages/alert-manager]: the retrying mail
    dispatcher ([alert-manager.ts]) and the per-worker sliding window of
    failure timestamps ([failure-detector.ts]).

    JavaScript numbers that the code uses as counters, delays and epoch
    milliseconds are integers of [Z]; strings are [string] (the ASCII
    fragment); [Map<string, Date[]>] is a [gmap string (list Z)].  The
    SMTP transport, the template renderer and the wall clock are the
    environment: they appear as a scripted oracle, a function and a field
    of the world, and every effect the code performs on them is recorded
    in a time-stamped trace. *)

From Stdlib Require Import ZArith String Ascii List Bool Lia.
From stdpp Require Import base decidable option list strings gmap pretty.

Local Open Scope string_scope.
Local Open Scope Z_scope.

(* ===================================================================== *)
(** ** JavaScript string helpers *)
(* ===================================================================== *)

Module JsString.

(** [String.prototype.toLowerCase] on one ASCII code unit. *)
Definition lower_ascii (c : ascii) : ascii :=
  let n := N_of_ascii c in
  if ((65 <=? n) && (n <=? 90))%N then ascii_of_N (n + 32) else c.

Fixpoint toLowerCase (s : string) : string :=
  match s with
  | EmptyString => EmptyString
  | String c s' => String (lower_ascii c) (toLowerCase s')
  end.

(** [t] is an initial segment of [s] ([s.startsWith(t)]). *)
Fixpoint startsWith (s t : string) {struct t} : bool :=
  match t with
  | EmptyString => true
  | String b t' =>
      match s with
      | EmptyString => false
      | String a s' => if Ascii.eqb a b then startsWith s' t' else false
      end
  end.

(** [s.includes(t)]: [t] occurs at some offset of [s]. *)
Fixpoint includes (s t : string) : bool :=
  startsWith s t ||
  match s with
  | EmptyString => false
  | String _ s' => includes s' t
  end.

(** The declarative reading of [includes]. *)
Definition occurs_in (t s : string) : Prop :=
  exists pre post : string, s = pre +:+ t +:+ post.

(** JavaScript truthiness of a string value. *)
Definition truthy (s : string) : bool :=
  match s with EmptyString => false | _ => true end.

End JsString.

(* ===================================================================== *)
(** ** Data model *)
(* ===================================================================== *)

(** Modelled from the spec: [types.ts] is imported by the sources but is
    not part of them.  The alert categories are the ones the spec and
    the README list, plus [SYSTEM_ERROR], which the class documentation
    of [AlertManager] uses. *)
Inductive AlertType :=
  JOB_FAILURE | REPEATED_FAILURES | RATE_LIMIT | WORKER_DOWN | SYSTEM_ERROR.

(** Modelled from the spec: the severity enumeration of [types.ts],
    ordered LOW < MEDIUM < HIGH < CRITICAL. *)
Inductive AlertSeverity := LOW | MEDIUM | HIGH | CRITICAL.

Definition AlertType_str (t : AlertType) : string :=
  match t with
  | JOB_FAILURE => "JOB_FAILURE"
  | REPEATED_FAILURES => "REPEATED_FAILURES"
  | RATE_LIMIT => "RATE_LIMIT"
  | WORKER_DOWN => "WORKER_DOWN"
  | SYSTEM_ERROR => "SYSTEM_ERROR"
  end.

Definition AlertSeverity_str (s : AlertSeverity) : string :=
  match s with
  | LOW => "LOW" | MEDIUM => "MEDIUM" | HIGH => "HIGH" | CRITICAL => "CRITICAL"
  end.

(** Values of the open [context] mapping of an alert. *)
Inductive ContextValue := CNum (n : Z) | CStr (s : string).

(** Modelled from the spec: the [Alert] object of [types.ts], with the
    fields that [trackJobFailure] fills in. *)
Record Alert := mkAlert {
  alert_type : AlertType;
  alert_severity : AlertSeverity;
  alert_workerName : option string;
  alert_timestamp : Z;
  alert_context : list (string * ContextValue);
  alert_message : string;
}.

(** [Result<T, E>] of [@lec/ddd-tools]. *)
Inductive Result (T E : Type) := Ok (value : T) | Err (error : E).
Arguments Ok {T E} value.
Arguments Err {T E} error.

Definition isErr {T E} (r : Result T E) : bool :=
  match r with Ok _ => false | Err _ => true end.

Record EmailSent := mkEmailSent { sent_id : string; sent_timestamp : Z }.

(** [nodemailer.ts]: what [NodemailerClient.send] takes and resolves to. *)
Record SendEmailParams := mkSendEmailParams {
  mail_from : string;
  mail_to : string;
  mail_subject : string;
  mail_html : option string;
  mail_text : option string;
}.

Record MailData := mkMailData { data_id : string }.

Record MailError := mkMailError {
  error_message : string;
  error_statusCode : option Z;
}.

Record SendEmailResult := mkSendEmailResult {
  res_data : option MailData;
  res_error : option MailError;
}.

(** The [context] payloads that [AlertManager] puts in an [AlertError]. *)
Inductive ErrorContext :=
  | CtxText (text : option string)
  | CtxAttempt (error : string) (attempts : Z)
  | CtxAttempts (attempts : Z)
  | CtxResponse (response : option MailData).

(** Modelled from the spec: the [AlertError] of [types.ts], as its
    constructor is called, [new AlertError(message, {alertType,
    recipient, context})]. *)
Record AlertError := mkAlertError {
  err_message : string;
  err_alertType : string;
  err_recipient : string;
  err_context : ErrorContext;
}.

Abbreviation SendResult := (Result EmailSent AlertError).

(** The [retry] and [thresholds] blocks once every field is present
    ([Required<NonNullable<...>>]). *)
Record RetryConfig := mkRetryConfig {
  maxAttempts : Z;
  delays : list Z;
}.

Record ThresholdsConfig := mkThresholds {
  failuresInWindow : Z;
  timeWindowMinutes : Z;
}.

(** The optional [retry] and [thresholds] blocks of the configuration. *)
Record RetryOptions := mkRetryOptions {
  opt_maxAttempts : option Z;
  opt_delays : option (list Z);
}.

Record ThresholdsOptions := mkThresholdsOptions {
  opt_failuresInWindow : option Z;
  opt_timeWindowMinutes : option Z;
}.

Record AlertManagerConfig := mkConfig {
  cfg_fromEmail : option string;
  cfg_adminEmail : string;
  cfg_retry : option RetryOptions;
  cfg_thresholds : option ThresholdsOptions;
  cfg_debounceWindowMs : option Z;
}.

Record AlertManager := mkAlertManager {
  config : AlertManagerConfig;
  retryConfig : RetryConfig;
  thresholdsConfig : ThresholdsConfig;
  debounceWindowMs : Z;
}.

(* ===================================================================== *)
(** ** The environment and the world *)
(* ===================================================================== *)

(** One reply of the SMTP transport: the promise of
    [NodemailerClient.send] resolves to a [SendEmailResult] or rejects. *)
Inductive MailerReply :=
  | Resolves (r : SendEmailResult)
  | Rejects (reason : string).

(** The collaborators the code consumes: the transport replies to its
    n-th call with [smtp n]; the template renderer is a function that
    yields the HTML or throws; [ALERT_THRESHOLDS] is the constant of
    [types.ts] that [FailureDetector] reads. *)
Record Env := mkEnv {
  smtp : nat -> MailerReply;
  renderTemplate : list Alert -> AlertType -> AlertSeverity -> string + string;
  ALERT_THRESHOLDS : ThresholdsConfig;
}.

(** Observable effects, in the order the code performs them: a call of
    [sendAlerts] with its batch, a call of the renderer, a message
    handed to the transport, a [sleep]. *)
Inductive Event :=
  | EvSendAlerts (alerts : list Alert) (alertType : AlertType)
                 (severity : AlertSeverity)
  | EvRender (alerts : list Alert)
  | EvMailerSend (params : SendEmailParams)
  | EvSleep (ms : Z).

Record World := mkWorld {
  clock : Z;                                (* Date.now(), epoch ms *)
  instance : option AlertManager;           (* AlertManager.instance *)
  failureHistory : gmap string (list Z);    (* FailureDetector.failureHistory *)
  mailerCalls : nat;                        (* sends the transport has seen *)
  trace : list (Z * Event);                 (* time-stamped effects *)
}.

Definition set_clock (t : Z) (w : World) : World :=
  mkWorld t (instance w) (failureHistory w) (mailerCalls w) (trace w).
Definition set_instance (i : option AlertManager) (w : World) : World :=
  mkWorld (clock w) i (failureHistory w) (mailerCalls w) (trace w).
Definition set_failureHistory (h : gmap string (list Z)) (w : World) : World :=
  mkWorld (clock w) (instance w) h (mailerCalls w) (trace w).
Definition emit (ev : Event) (w : World) : World :=
  mkWorld (clock w) (instance w) (failureHistory w) (mailerCalls w)
          (trace w ++ [(clock w, ev)])%list.

(** The world after the transport has been handed [params]. *)
Definition sent (params : SendEmailParams) (w : World) : World :=
  mkWorld (clock w) (instance w) (failureHistory w) (S (mailerCalls w))
          (trace w ++ [(clock w, EvMailerSend params)])%list.

(** The world after a [sleep(ms)], as the model has it: the request is
    recorded and the clock set on by the requested time, by none for a
    negative request.  Nothing else in the model takes time, so the
    clock orders the effects and is no measure of how long the real
    code runs. *)
Definition slept (ms : Z) (w : World) : World :=
  set_clock (clock w + Z.max 0 ms) (emit (EvSleep ms) w).

(** An asynchronous method either returns a value or throws (rejects). *)
Inductive Outcome (A : Type) := Returned (a : A) | Thrown (reason : string).
Arguments Returned {A} a.
Arguments Thrown {A} reason.

Definition M (A : Type) : Type := World -> Outcome A * World.

Definition ret {A} (a : A) : M A := fun w => (Returned a, w).

Definition bind {A B} (m : M A) (k : A -> M B) : M B :=
  fun w => match m w with
           | (Returned a, w') => k a w'
           | (Thrown e, w') => (Thrown e, w')
           end.

Definition throw {A} (reason : string) : M A := fun w => (Thrown reason, w).

(** [try { body } catch (error) { handler(error) }]. *)
Definition try_catch {A} (body : M A) (handler : string -> M A) : M A :=
  fun w => match body w with
           | (Returned a, w') => (Returned a, w')
           | (Thrown e, w') => handler e w'
           end.

Definition gets {A} (f : World -> A) : M A := fun w => (Returned (f w), w).
Definition modify (f : World -> World) : M unit := fun w => (Returned tt, f w).

Declare Scope js_scope.
Delimit Scope js_scope with js.
Notation "x <- m ;; k" := (bind m (fun x => k))
  (at level 100, m at next level, right associativity) : js_scope.
Notation "m ;;; k" := (bind m (fun _ => k))
  (at level 100, right associativity) : js_scope.
Local Open Scope js_scope.

(** [Date.now()] / [new Date()]. *)
Definition date_now : M Z := gets clock.

(** Control flow of one iteration of a [for] loop with early [return]. *)
Inductive Step (R : Type) := Continue | Break (r : R).
Arguments Continue {R}.
Arguments Break {R} r.

(** [for (let attempt = 0; attempt < n; attempt++) body; after]: the body
    neither assigns [attempt] nor changes the bound, so the loop visits
    the indices [seqZ 0 n] in order. *)
Fixpoint for_each {R} (indices : list Z) (body : Z -> M (Step R)) (after : M R)
  : M R :=
  match indices with
  | [] => after
  | i :: rest =>
      step <- body i ;;
      match step with
      | Break r => ret r
      | Continue => for_each rest body after
      end
  end.

(** [xs[i]] for a JavaScript number [i]: [undefined] out of range. *)
Definition js_index {A} (xs : list A) (i : Z) : option A :=
  if i <? 0 then None else xs !! Z.to_nat i.

(** [a ?? b]. *)
Definition nullish {A} (a : option A) (b : A) : A :=
  match a with Some x => x | None => b end.

(** [a?.f]. *)
Definition optional_chain {A B} (a : option A) (f : A -> option B) : option B :=
  match a with Some x => f x | None => None end.

(* ===================================================================== *)
(** ** alert-manager.ts *)
(* ===================================================================== *)

Module AlertManager.

Definition DEFAULT_RETRY_CONFIG : RetryConfig :=
  mkRetryConfig 3 [1000; 2000; 4000].

Definition DEFAULT_THRESHOLDS : ThresholdsConfig := mkThresholds 5 10.

Definition DEFAULT_DEBOUNCE_WINDOW_MS : Z := 5 * 60 * 1000.

Definition constructor (config : AlertManagerConfig) : AlertManager :=
  {| config := config;
     retryConfig :=
       {| maxAttempts :=
            nullish (optional_chain (cfg_retry config) opt_maxAttempts)
                    (maxAttempts DEFAULT_RETRY_CONFIG);
          delays :=
            nullish (optional_chain (cfg_retry config) opt_delays)
                    (delays DEFAULT_RETRY_CONFIG) |};
     thresholdsConfig :=
       {| failuresInWindow :=
            nullish (optional_chain (cfg_thresholds config) opt_failuresInWindow)
                    (failuresInWindow DEFAULT_THRESHOLDS);
          timeWindowMinutes :=
            nullish (optional_chain (cfg_thresholds config) opt_timeWindowMinutes)
                    (timeWindowMinutes DEFAULT_THRESHOLDS) |};
     debounceWindowMs :=
       nullish (cfg_debounceWindowMs config) DEFAULT_DEBOUNCE_WINDOW_MS |}.

(** [static initialize(config)]: the first call wins. *)
Definition initialize (config : AlertManagerConfig) : M AlertManager :=
  existing <- gets instance ;;
  match existing with
  | Some mgr => ret mgr
  | None =>
      let mgr := constructor config in
      modify (set_instance (Some mgr)) ;;;
      ret mgr
  end.

(** [static getInstance()]: throws before [initialize]. *)
Definition getInstance : M AlertManager :=
  existing <- gets instance ;;
  match existing with
  | None =>
      throw "AlertManager not initialized. Call AlertManager.initialize(config) first."
  | Some mgr => ret mgr
  end.

Definition isInitialized : M bool :=
  existing <- gets instance ;;
  ret (match existing with Some _ => true | None => false end).

Definition reset : M unit := modify (set_instance None).

(** [get debounceWindow()]. *)
Definition debounceWindow (this : AlertManager) : Z := debounceWindowMs this.

Definition getSeverityIcon (severity : AlertSeverity) : string :=
  match severity with
  | CRITICAL => "üö®"
  | HIGH => "‚ö†Ô∏è"
  | MEDIUM => "‚ÑπÔ∏è"
  | LOW => "üìù"
  end.

Definition getAlertSubject (severity : AlertSeverity) (alertType : AlertType)
  : string :=
  getSeverityIcon severity +:+ " " +:+ AlertSeverity_str severity +:+ ": "
    +:+ AlertType_str alertType.

(** [isTransientError(error)]. *)
Definition isTransientError (error : MailError) : bool :=
  if bool_decide (error_statusCode error = Some 429)
     || bool_decide (error_statusCode error = Some 503)
  then true
  else
    let msg := JsString.toLowerCase (error_message error) in
    JsString.includes msg "timeout"
    || JsString.includes msg "network"
    || JsString.includes msg "econnrefused".

(** [sleep(ms)]: the promise resolves once the timer has run. *)
Definition sleep (ms : Z) : M unit := modify (slept ms).

Section WithEnv.

Context (env : Env).

(** [this.mailer.send(params)]: the transport answers its n-th call
    with [smtp env n]. *)
Definition mailer_send (params : SendEmailParams) : M SendEmailResult :=
  fun w =>
    match smtp env (mailerCalls w) with
    | Resolves r => (Returned r, sent params w)
    | Rejects reason => (Thrown reason, sent params w)
    end.

(** [await render(CriticalAlertEmail({alerts, alertType, severity}))]. *)
Definition render (alerts : list Alert) (alertType : AlertType)
           (severity : AlertSeverity) : M string :=
  modify (emit (EvRender alerts)) ;;;
  match renderTemplate env alerts alertType severity with
  | inl html => ret html
  | inr reason => throw reason
  end.

(** The body of the [for] loop of [sendWithRetry] at index [attempt]. *)
Definition sendAttempt (this : AlertManager)
           (subject html : string) (alertType : AlertType)
           (fromEmail : string) (attempt : Z) : M (Step SendResult) :=
  try_catch
    (reply <- mailer_send
                {| mail_from := fromEmail;
                   mail_to := cfg_adminEmail (config this);
                   mail_subject := subject;
                   mail_html := Some html;
                   mail_text := None |} ;;
     match res_error reply with
     | Some error =>
         let isTransient := isTransientError error in
         if negb isTransient
            || (attempt =? maxAttempts (retryConfig this) - 1)
         then
           ret (Break (Err
             {| err_message := "Failed to send alert email";
                err_alertType := AlertType_str alertType;
                err_recipient := cfg_adminEmail (config this);
                err_context :=
                  CtxAttempt (error_message error) (attempt + 1) |}))
         else
           sleep (nullish (js_index (delays (retryConfig this)) attempt) 1000) ;;;
           ret Continue
     | None =>
         match res_data reply with
         | Some data =>
             if JsString.truthy (data_id data) then
               now <- date_now ;;
               ret (Break (Ok {| sent_id := data_id data;
                                 sent_timestamp := now |}))
             else
               ret (Break (Err
                 {| err_message := "Invalid response from mailer";
                    err_alertType := AlertType_str alertType;
                    err_recipient := cfg_adminEmail (config this);
                    err_context := CtxResponse (res_data reply) |}))
         | None =>
             ret (Break (Err
               {| err_message := "Invalid response from mailer";
                  err_alertType := AlertType_str alertType;
                  err_recipient := cfg_adminEmail (config this);
                  err_context := CtxResponse (res_data reply) |}))
         end
     end)
    (fun errorMessage =>
       if attempt <? maxAttempts (retryConfig this) - 1 then
         sleep (nullish (js_index (delays (retryConfig this)) attempt) 1000) ;;;
         ret Continue
       else
         ret (Break (Err
           {| err_message := "Failed to send alert email after retries";
              err_alertType := AlertType_str alertType;
              err_recipient := cfg_adminEmail (config this);
              err_context := CtxAttempt errorMessage (attempt + 1) |}))).

(** [sendWithRetry({subject, html, alertType, fromEmail})]. *)
Definition sendWithRetry (this : AlertManager)
           (subject html : string) (alertType : AlertType)
           (fromEmail : string) : M SendResult :=
  for_each (seqZ 0 (maxAttempts (retryConfig this)))
    (sendAttempt this subject html alertType fromEmail)
    (ret (Err
       {| err_message := "Failed to send alert email";
          err_alertType := AlertType_str alertType;
          err_recipient := cfg_adminEmail (config this);
          err_context := CtxAttempts (maxAttempts (retryConfig this)) |})).

(** [sendAlerts(alerts, alertType, severity, options)];
    [options_from] is [options?.from]. *)
Definition sendAlerts (this : AlertManager) (alerts : list Alert)
           (alertType : AlertType) (severity : AlertSeverity)
           (options_from : option string) : M SendResult :=
  modify (emit (EvSendAlerts alerts alertType severity)) ;;;
  startTime <- date_now ;;
  let subject := getAlertSubject severity alertType in
  (* options?.from ?? this.config.fromEmail *)
  let fromEmail := nullish (Some <$> options_from) (cfg_fromEmail (config this)) in
  let noSender :=
    ret (Err
      {| err_message := "No from email provided";
         err_alertType := AlertType_str alertType;
         err_recipient := cfg_adminEmail (config this);
         err_context :=
           CtxText (Some "Provide fromEmail in config or pass it in options") |}) in
  match fromEmail with
  | None => noSender
  | Some fromEmail =>
      if negb (JsString.truthy fromEmail) then noSender
      else
        rendered <- try_catch
                      (html <- render alerts alertType severity ;;
                       ret (inl html))
                      (fun reason => ret (inr
                         {| err_message := "Failed to render alert email template";
                            err_alertType := AlertType_str alertType;
                            err_recipient := cfg_adminEmail (config this);
                            err_context := CtxText (Some reason) |})) ;;
        match rendered with
        | inr failure => ret (Err failure)
        | inl html =>
            result <- sendWithRetry this subject html alertType fromEmail ;;
            now <- date_now ;;
            let duration := now - startTime in
            if isErr result then ret result else ret result
        end
  end.

(** [sendAlert(alert, options)]. *)
Definition sendAlert (this : AlertManager) (alert : Alert)
           (options_from : option string) : M SendResult :=
  sendAlerts this [alert] (alert_type alert) (alert_severity alert)
             options_from.

(** [sendCustomEmail({from, to, subject, html, text})]. *)
Definition sendCustomEmail (this : AlertManager)
           (from to : option string) (subject html : string)
           (text : option string) : M SendResult :=
  let recipient := nullish to (cfg_adminEmail (config this)) in
  (* params.from ?? this.config.fromEmail *)
  let fromEmail := nullish (Some <$> from) (cfg_fromEmail (config this)) in
  let noSender :=
    ret (Err
      {| err_message := "No from email provided";
         err_alertType := "CUSTOM";
         err_recipient := recipient;
         err_context :=
           CtxText (Some "Provide fromEmail in config or pass it in params") |}) in
  match fromEmail with
  | None => noSender
  | Some fromEmail =>
      if negb (JsString.truthy fromEmail) then noSender
      else
        reply <- mailer_send
                   {| mail_from := fromEmail;
                      mail_to := recipient;
                      mail_subject := subject;
                      mail_html := Some html;
                      mail_text := text |} ;;
        match res_error reply, res_data reply with
        | None, Some data =>
            now <- date_now ;;
            ret (Ok {| sent_id := data_id data; sent_timestamp := now |})
        | error, _ =>
            ret (Err
              {| err_message := "Failed to send custom email";
                 err_alertType := "CUSTOM";
                 err_recipient := recipient;
                 err_context :=
                   CtxText (optional_chain error
                              (fun e => Some (error_message e))) |})
        end
  end.

End WithEnv.

End AlertManager.

(* ===================================================================== *)
(** ** failure-detector.ts *)
(* ===================================================================== *)

Module FailureDetector.

(** [failures.filter((timestamp) => timestamp >= cutoffTime)]. *)
Definition recentSince (cutoffTime : Z) (failures : list Z) : list Z :=
  filter (fun timestamp => cutoffTime <= timestamp) failures.

Section WithEnv.

Context (env : Env).

Definition timeWindowMs : Z :=
  timeWindowMinutes (ALERT_THRESHOLDS env) * 60 * 1000.

(** The alert that [trackJobFailure] builds once the threshold is met. *)
Definition repeatedFailuresAlert (jobId workerName error : string)
           (now : Z) (failureCount : nat) : Alert :=
  {| alert_type := REPEATED_FAILURES;
     alert_severity := HIGH;
     alert_workerName := Some workerName;
     alert_timestamp := now;
     alert_context :=
       [("failureCount", CNum (Z.of_nat failureCount));
        ("timeWindowMinutes", CNum (timeWindowMinutes (ALERT_THRESHOLDS env)));
        ("jobId", CStr jobId);
        ("error", CStr error)];
     alert_message :=
       workerName +:+ " has " +:+ pretty (Z.of_nat failureCount)
         +:+ " failures in "
         +:+ pretty (timeWindowMinutes (ALERT_THRESHOLDS env))
         +:+ " minutes (threshold: "
         +:+ pretty (failuresInWindow (ALERT_THRESHOLDS env)) +:+ ")" |}.

(** [trackJobFailure(jobId, workerName, error)]. *)
Definition trackJobFailure (jobId workerName error : string) : M unit :=
  now <- date_now ;;
  history <- gets failureHistory ;;
  (* [failures.push(now)] writes into the stored array when there is one *)
  let failures := (nullish (history !! workerName) [] ++ [now])%list in
  modify (set_failureHistory
            (match history !! workerName with
             | Some _ => <[workerName := failures]> history
             | None => history
             end)) ;;;
  let cutoffTime := now - timeWindowMs in
  let recentFailures := recentSince cutoffTime failures in
  history <- gets failureHistory ;;
  modify (set_failureHistory (<[workerName := recentFailures]> history)) ;;;
  if failuresInWindow (ALERT_THRESHOLDS env) <=? Z.of_nat (length recentFailures)
  then
    manager <- AlertManager.getInstance ;;
    AlertManager.sendAlert env manager
      (repeatedFailuresAlert jobId workerName error now (length recentFailures))
      None ;;;
    history <- gets failureHistory ;;
    modify (set_failureHistory (<[workerName := []]> history))
  else ret tt.

(** [getFailureCount(workerName)]. *)
Definition getFailureCount (workerName : string) : M nat :=
  history <- gets failureHistory ;;
  let failures := nullish (history !! workerName) [] in
  now <- date_now ;;
  let cutoffTime := now - timeWindowMs in
  let recentFailures := recentSince cutoffTime failures in
  ret (length recentFailures).

(** [resetFailureHistory(workerName)]. *)
Definition resetFailureHistory (workerName : string) : M unit :=
  history <- gets failureHistory ;;
  modify (set_failureHistory (delete workerName history)).

(** [clearAll()]. *)
Definition clearAll : M unit := modify (set_failureHistory ∅).

End WithEnv.

End FailureDetector.

(** The environment advancing the wall clock between two calls. *)
Definition at_time (t : Z) (w : World) : World := set_clock t w.

(** Run [m] for its final world. *)
Definition exec {A} (m : M A) (w : World) : World := snd (m w).

(** Run [m] for its outcome. *)
Definition eval {A} (m : M A) (w : World) : Outcome A := fst (m w).

(* ===================================================================== *)
(** ** Specification vocabulary *)
(* ===================================================================== *)

(** The spec's reading of a transient transport failure: the status is
    rate-limiting (429) or service-unavailable (503), or the message,
    case-insensitively, mentions a timeout, a network failure or a
    refused connection. *)
Definition indicates (word : string) (error : MailError) : Prop :=
  JsString.occurs_in word (JsString.toLowerCase (error_message error)).

Definition transient_failure (error : MailError) : Prop :=
  error_statusCode error = Some 429
  \/ error_statusCode error = Some 503
  \/ indicates "timeout" error
  \/ indicates "network" error
  \/ indicates "econnrefused" error.

(** The two buckets of the classification. *)
Inductive ErrorClass := Transient | Terminal.

Definition classify (error : MailError) : ErrorClass :=
  if AlertManager.isTransientError error then Transient else Terminal.

(** The durations the code slept for, oldest first. *)
Fixpoint sleeps_of (tr : list (Z * Event)) : list Z :=
  match tr with
  | [] => []
  | (_, EvSleep ms) :: tr' => ms :: sleeps_of tr'
  | _ :: tr' => sleeps_of tr'
  end.

(** The transport sends, each with the time it was issued at. *)
Fixpoint sends_of (tr : list (Z * Event)) : list (Z * SendEmailParams) :=
  match tr with
  | [] => []
  | (t, EvMailerSend p) :: tr' => (t, p) :: sends_of tr'
  | _ :: tr' => sends_of tr'
  end.

(** The batches handed to [sendAlerts], each with its time. *)
Fixpoint dispatched_of (tr : list (Z * Event)) : list (Z * list Alert) :=
  match tr with
  | [] => []
  | (t, EvSendAlerts alerts _ _) :: tr' => (t, alerts) :: dispatched_of tr'
  | _ :: tr' => dispatched_of tr'
  end.

(** The batches given to the renderer. *)
Fixpoint rendered_of (tr : list (Z * Event)) : list (list Alert) :=
  match tr with
  | [] => []
  | (_, EvRender alerts) :: tr' => alerts :: rendered_of tr'
  | _ :: tr' => rendered_of tr'
  end.

(** The sender address [sendAlerts] and [sendCustomEmail] settle on. *)
Definition resolvedSender (this : AlertManager) (from : option string)
  : option string :=
  nullish (Some <$> from) (cfg_fromEmail (config this)).

(** The configuration failure of [sendAlerts]. *)
Definition noSenderError (this : AlertManager) (alertType : AlertType)
  : AlertError :=
  {| err_message := "No from email provided";
     err_alertType := AlertType_str alertType;
     err_recipient := cfg_adminEmail (config this);
     err_context :=
       CtxText (Some "Provide fromEmail in config or pass it in options") |}.

(** The message [sendWithRetry] hands to the transport. *)
Definition alertMail (this : AlertManager) (subject html fromEmail : string)
  : SendEmailParams :=
  {| mail_from := fromEmail;
     mail_to := cfg_adminEmail (config this);
     mail_subject := subject;
     mail_html := Some html;
     mail_text := None |}.

(** The pause [sendWithRetry] takes after a retryable failure of
    attempt [attempt]. *)
Definition backoff (this : AlertManager) (attempt : Z) : Z :=
  nullish (js_index (delays (retryConfig this)) attempt) 1000.

(** The failures [sendWithRetry] reports. *)
Definition deliveryFailed (this : AlertManager) (alertType : AlertType)
           (reason : string) (attempts : Z) : AlertError :=
  {| err_message := "Failed to send alert email";
     err_alertType := AlertType_str alertType;
     err_recipient := cfg_adminEmail (config this);
     err_context := CtxAttempt reason attempts |}.

Definition deliveryFailedAfterRetries (this : AlertManager)
           (alertType : AlertType) (reason : string) (attempts : Z)
  : AlertError :=
  {| err_message := "Failed to send alert email after retries";
     err_alertType := AlertType_str alertType;
     err_recipient := cfg_adminEmail (config this);
     err_context := CtxAttempt reason attempts |}.

Definition invalidResponse (this : AlertManager) (alertType : AlertType)
           (response : option MailData) : AlertError :=
  {| err_message := "Invalid response from mailer";
     err_alertType := AlertType_str alertType;
     err_recipient := cfg_adminEmail (config this);
     err_context := CtxResponse response |}.

(** The failure after the loop, which carries the configured attempt
    count and no transport message. *)
Definition fallbackFailure (this : AlertManager) (alertType : AlertType)
  : AlertError :=
  {| err_message := "Failed to send alert email";
     err_alertType := AlertType_str alertType;
     err_recipient := cfg_adminEmail (config this);
     err_context := CtxAttempts (maxAttempts (retryConfig this)) |}.

(** The attempt count a failure reports, when it reports one. *)
Definition reportedAttempts (e : AlertError) : option Z :=
  match err_context e with
  | CtxAttempt _ attempts => Some attempts
  | CtxAttempts attempts => Some attempts
  | _ => None
  end.

(** A reply that carries a transient transport error. *)
Definition transientReply (reply : MailerReply) : Prop :=
  exists r error,
    reply = Resolves r /\ res_error r = Some error
    /\ AlertManager.isTransientError error = true.

(** A reply that carries the message id [id] and no error. *)
Definition successReply (id : string) (reply : MailerReply) : Prop :=
  exists r,
    reply = Resolves r /\ res_error r = None
    /\ res_data r = Some (mkMailData id) /\ id <> "".

(** A reply after which [sendWithRetry] tries again when attempts
    remain: a transient transport error, or a rejected promise. *)
Definition retryableReply (reply : MailerReply) : Prop :=
  transientReply reply \/ exists reason, reply = Rejects reason.

(** The pause the spec words prescribe at attempt [i], with the code's
    fallback: [delays[i]] while the list lasts, one second after that. *)
Definition configuredDelay (this : AlertManager) (i : nat) : Z :=
  match delays (retryConfig this) !! i with
  | Some d => d
  | None => 1000
  end.

(** The message [sendCustomEmail] hands to the transport. *)
Definition customMail (this : AlertManager) (to : option string)
           (subject html : string) (text : option string) (sender : string)
  : SendEmailParams :=
  {| mail_from := sender;
     mail_to := nullish to (cfg_adminEmail (config this));
     mail_subject := subject;
     mail_html := Some html;
     mail_text := text |}.

(** The failure [sendCustomEmail] reports for a transport error. *)
Definition customEmailFailed (this : AlertManager) (to : option string)
           (reason : option string) : AlertError :=
  {| err_message := "Failed to send custom email";
     err_alertType := "CUSTOM";
     err_recipient := nullish to (cfg_adminEmail (config this));
     err_context := CtxText reason |}.

(** The world after [k] attempts from index [a] that each failed in a
    retryable way: every one handed [mail] to the transport and slept. *)
Fixpoint retried (this : AlertManager) (mail : SendEmailParams)
         (a : Z) (k : nat) (w : World) : World :=
  match k with
  | O => w
  | S k' => retried this mail (a + 1) k' (slept (backoff this a) (sent mail w))
  end.

(** A reply that carries a transport error the classifier calls
    terminal. *)
Definition terminalReply (error : MailError) (reply : MailerReply) : Prop :=
  exists r,
    reply = Resolves r /\ res_error r = Some error
    /\ AlertManager.isTransientError error = false.

(** A reply without an error and without a usable message id. *)
Definition emptyReply (response : option MailData) (reply : MailerReply) : Prop :=
  exists r,
    reply = Resolves r /\ res_error r = None /\ res_data r = response
    /\ (response = None \/ response = Some (mkMailData "")).

(** The failure [sendAlerts] reports when the template throws. *)
Definition renderFailed (this : AlertManager) (alertType : AlertType)
           (reason : string) : AlertError :=
  {| err_message := "Failed to render alert email template";
     err_alertType := AlertType_str alertType;
     err_recipient := cfg_adminEmail (config this);
     err_context := CtxText (Some reason) |}.

(** The configuration failure of [sendCustomEmail]. *)
Definition noCustomSenderError (this : AlertManager) (to : option string)
  : AlertError :=
  {| err_message := "No from email provided";
     err_alertType := "CUSTOM";
     err_recipient := nullish to (cfg_adminEmail (config this));
     err_context :=
       CtxText (Some "Provide fromEmail in config or pass it in params") |}.

(* ===================================================================== *)
(** ** nodemailer.ts *)
(* ===================================================================== *)

Module NodemailerClient.

(** What [transporter.sendMail] throws: an [Error] with its message, or
    any other value, of which the code only takes [String(value)]. *)
Inductive ThrownValue :=
  | ErrorObject (message : string)
  | OtherValue (text : string).

(** One call of [transporter.sendMail]: it resolves with the message id
    or rejects. *)
Inductive SendMailOutcome :=
  | Accepted (messageId : string)
  | Refused (thrown : ThrownValue).

(** [getErrorStatusCode(error)]. *)
Definition getErrorStatusCode (error : ThrownValue) : option Z :=
  match error with
  | OtherValue _ => None
  | ErrorObject message =>
      let msg := JsString.toLowerCase message in
      if JsString.includes msg "auth" || JsString.includes msg "credentials"
      then Some 401
      else if JsString.includes msg "rate" || JsString.includes msg "too many"
      then Some 429
      else if JsString.includes msg "econnrefused"
              || JsString.includes msg "timeout"
              || JsString.includes msg "network"
      then Some 503
      else if JsString.includes msg "recipient" || JsString.includes msg "address"
      then Some 400
      else Some 500
  end.

(** [error instanceof Error ? error.message : String(error)]. *)
Definition errorMessage (error : ThrownValue) : string :=
  match error with
  | ErrorObject message => message
  | OtherValue text => text
  end.

(** [send(params)], by what [transporter.sendMail] did with the
    message: the [try]/[catch] turns a rejection into a result. *)
Definition send (outcome : SendMailOutcome) : SendEmailResult :=
  match outcome with
  | Accepted messageId =>
      {| res_data := Some (mkMailData messageId); res_error := None |}
  | Refused error =>
      {| res_data := None;
         res_error := Some {| error_message := errorMessage error;
                              error_statusCode := getErrorStatusCode error |} |}
  end.

(** [verify()]: [true] when [transporter.verify()] resolves, [false]
    when it rejects. *)
Definition verify (outcome : unit + ThrownValue) : bool :=
  match outcome with inl _ => true | inr _ => false end.

(** The transport [AlertManager] talks to when its mailer is this
    client over a transporter that treats its n-th message as
    [transporter n]. *)
Definition mailer (transporter : nat -> SendMailOutcome) (n : nat) : MailerReply :=
  Resolves (send (transporter n)).

End NodemailerClient.

(* ===================================================================== *)
(** ** query.base.ts *)
(* ===================================================================== *)

Module PaginatedQueryBase.

Section WithTypes.

(** [OrderBy] and [Filter] come from [./paginated], which the
    constructor only passes on. *)
Context {OrderBy Filter : Type}.

(** [PaginatedParams<PaginatedQueryBase>]: every field is optional. *)
Record Params := mkParams {
  props_limit : option Z;
  props_page : option Z;
  props_orderBy : option (list OrderBy);
  props_filters : option (list Filter);
  props_search : option string;
}.

Record Query := mkQuery {
  limit : Z;
  offset : Z;
  orderBy : option (list OrderBy);
  filters : option (list Filter);
  search : option string;
  page : Z;
}.

(** [x || d] for an optional number: [undefined] and [0] are falsy. *)
Definition or_default (x : option Z) (d : Z) : Z :=
  match x with
  | Some n => if n =? 0 then d else n
  | None => d
  end.

(** [Number.MAX_SAFE_INTEGER]: up to this magnitude every integer is a
    double, and a sum, difference or product of integers that stays
    within it is computed exactly. *)
Definition MAX_SAFE_INTEGER : Z := 2 ^ 53 - 1.

Definition isSafeInteger (n : Z) : bool := Z.abs n <=? MAX_SAFE_INTEGER.

(** [constructor(props)], for [limit] and [page] given as integers.
    The code computes in doubles; the model follows it where that
    arithmetic is exact, which is when the numbers given and the
    offset are safe integers, and says nothing ([None]) elsewhere.
    Fractional and [NaN] arguments are outside the model. *)
Definition constructor (props : Params) : option Query :=
  let limit := or_default (props_limit props) 20 in
  let offset :=
    match props_page props with
    | Some page =>
        if negb (page =? 0) && (1 <? page) then (page - 1) * limit else 0
    | None => 0
    end in
  let page := or_default (props_page props) 1 in
  if isSafeInteger limit && isSafeInteger page && isSafeInteger offset
  then Some {| limit := limit;
               offset := offset;
               page := page;
               orderBy := props_orderBy props;
               filters := props_filters props;
               search := props_search props |}
  else None.

End WithTypes.

Arguments Params : clear implicits.
Arguments Query : clear implicits.

End PaginatedQueryBase.

(** [message], lower-cased, contains [word]. *)
Definition mentions (word message : string) : Prop :=
  JsString.occurs_in word (JsString.toLowerCase message).

(** The four families of messages [getErrorStatusCode] looks for. *)
Definition authFailure (message : string) : Prop :=
  mentions "auth" message \/ mentions "credentials" message.

Definition rateLimited (message : string) : Prop :=
  mentions "rate" message \/ mentions "too many" message.

Definition connectionTrouble (message : string) : Prop :=
  mentions "econnrefused" message \/ mentions "timeout" message
  \/ mentions "network" message.

Definition badRecipient (message : string) : Prop :=
  mentions "recipient" message \/ mentions "address" message.

(** The error [NodemailerClient.send] reports for a thrown value. *)
Definition reportedError (thrown : NodemailerClient.ThrownValue) : MailError :=
  {| error_message := NodemailerClient.errorMessage thrown;
     error_statusCode := NodemailerClient.getErrorStatusCode thrown |}.

(** The timestamps the detector holds for a worker ([[]] when it holds
    none). *)
Definition stored (w : World) (workerName : string) : list Z :=
  nullish (failureHistory w !! workerName) [].

(** The window [trackJobFailure] keeps when it records a failure now:
    the stored timestamps and the new one, trimmed to the trailing
    window. *)
Definition windowAfter (env : Env) (w : World) (workerName : string) : list Z :=
  FailureDetector.recentSince (clock w - FailureDetector.timeWindowMs env)
    (stored w workerName ++ [clock w])%list.

(** The spec's count: stored timestamps [t] with
    [now - timeWindow <= t <= now]. *)
Definition countInWindow (env : Env) (now : Z) (timestamps : list Z) : nat :=
  length (filter (fun t => now - FailureDetector.timeWindowMs env <= t /\ t <= now)
                 timestamps).

(** No stored timestamp lies ahead of the clock. *)
Definition historyBehindClock (w : World) : Prop :=
  forall workerName timestamps,
    failureHistory w !! workerName = Some timestamps ->
    Forall (fun t => t <= clock w) timestamps.

(** Failures of one worker reported one after the other, the clock
    standing at each given time in turn. *)
Fixpoint reportFailures (env : Env) (jobId workerName error : string)
         (times : list Z) (w : World) : World :=
  match times with
  | [] => w
  | t :: times' =>
      reportFailures env jobId workerName error times'
        (exec (FailureDetector.trackJobFailure env jobId workerName error)
              (at_time t w))
  end.

(* ===================================================================== *)
(** ** Scenarios *)
(* ===================================================================== *)

Module Scenario.

(** Transport replies. *)
Definition delivered (id : string) : MailerReply :=
  Resolves (mkSendEmailResult (Some (mkMailData id)) None).

Definition failed (reason : string) (statusCode : option Z) : MailerReply :=
  Resolves (mkSendEmailResult None (Some (mkMailError reason statusCode))).

Definition unavailable : MailerReply := failed "Service unavailable" (Some 503).

(** A renderer that always produces a page. *)
Definition page (alerts : list Alert) (alertType : AlertType)
           (severity : AlertSeverity) : string + string :=
  inl "<html></html>".

Definition envOf (script : nat -> MailerReply) : Env :=
  {| smtp := script;
     renderTemplate := page;
     ALERT_THRESHOLDS := mkThresholds 5 10 |}.

(** The configuration of the class documentation. *)
Definition documented : AlertManagerConfig :=
  {| cfg_fromEmail := Some "alerts@yourcompany.com";
     cfg_adminEmail := "admin@yourcompany.com";
     cfg_retry := Some (mkRetryOptions (Some 3) (Some [1000; 2000; 4000]));
     cfg_thresholds := Some (mkThresholdsOptions (Some 5) (Some 10));
     cfg_debounceWindowMs := Some (5 * 60 * 1000) |}.

Definition withRetry (maxAttempts : Z) (delays : list Z) : AlertManagerConfig :=
  {| cfg_fromEmail := Some "alerts@yourcompany.com";
     cfg_adminEmail := "admin@yourcompany.com";
     cfg_retry := Some (mkRetryOptions (Some maxAttempts) (Some delays));
     cfg_thresholds := None;
     cfg_debounceWindowMs := None |}.

Definition withoutSender : AlertManagerConfig :=
  {| cfg_fromEmail := None;
     cfg_adminEmail := "admin@yourcompany.com";
     cfg_retry := None;
     cfg_thresholds := None;
     cfg_debounceWindowMs := None |}.

(** A fresh process at time [t], with the manager initialized or not. *)
Definition boot (t : Z) (manager : option AlertManager) : World :=
  {| clock := t; instance := manager; failureHistory := ∅;
     mailerCalls := O; trace := [] |}.

Definition jobFailure (t : Z) (text : string) : Alert :=
  {| alert_type := JOB_FAILURE;
     alert_severity := CRITICAL;
     alert_workerName := Some "digest-worker";
     alert_timestamp := t;
     alert_context := [("jobId", CStr "job-123")];
     alert_message := text |}.

(** A detector that has seen four failures of worker-A within four
    seconds, one below the threshold of five. *)
Definition fourFailures (manager : option AlertManager) : World :=
  {| clock := 4000; instance := manager;
     failureHistory := {[ "worker-A" := [0; 1000; 2000; 3000] ]};
     mailerCalls := O; trace := [] |}.

(** worker-A fails at the given times. *)
Definition failuresAt (env : Env) (times : list Z) (w : World) : World :=
  reportFailures env "job" "worker-A" "OpenAI API timeout" times w.

(** Further transport scripts: two transient failures and then a
    delivery; a transient failure and then a refused login; a reply
    that carries nothing; a transport whose promise always rejects. *)
Definition thirdTimeLucky (n : nat) : MailerReply :=
  match n with
  | O | S O => unavailable
  | _ => delivered "m-42"
  end.

Definition badLogin : MailerReply := failed "Invalid login" (Some 401).

Definition flakyThenBadLogin (n : nat) : MailerReply :=
  match n with
  | O => unavailable
  | _ => badLogin
  end.

Definition flakyThenNothing (n : nat) : MailerReply :=
  match n with
  | O => unavailable
  | _ => Resolves (mkSendEmailResult None None)
  end.

Definition alwaysThrows (n : nat) : MailerReply := Rejects "socket hang up".

(** A renderer that always throws. *)
Definition brokenTemplate (alerts : list Alert) (alertType : AlertType)
           (severity : AlertSeverity) : string + string :=
  inr "Objects are not valid as a React child".

(** A transporter that refuses every message with the same error. *)
Definition refusing (message : string) (n : nat)
  : NodemailerClient.SendMailOutcome :=
  NodemailerClient.Refused (NodemailerClient.ErrorObject message).

Definition nodemailerEnv (transporter : nat -> NodemailerClient.SendMailOutcome)
  : Env :=
  envOf (NodemailerClient.mailer transporter).

(** A detector configured with the given threshold and window. *)
Definition envWithThresholds (failuresInWindow timeWindowMinutes : Z) : Env :=
  {| smtp := fun _ => delivered "m-1";
     renderTemplate := page;
     ALERT_THRESHOLDS := mkThresholds failuresInWindow timeWindowMinutes |}.

End Scenario.

(* ===================================================================== *)
(** * Theorems *)
(* ===================================================================== *)

(** ** Strings *)

Lemma startsWith_spec (s t : string) :
  JsString.startsWith s t = true <-> exists post, s = t +:+ post.
Proof.
  revert s. induction t as [|b t IH]; intros s; simpl.
  - split; [intros _; now exists s | reflexivity].
  - destruct s as [|a s]; simpl.
    + split; [discriminate | intros [post H]; discriminate].
    + destruct (Ascii.eqb_spec a b) as [->|Hne].
      * rewrite IH. split; intros [post H]; exists post.
        -- now rewrite H.
        -- now injection H.
      * split; [discriminate | intros [post H]; injection H; congruence].
Qed.

Lemma includes_spec (s t : string) :
  JsString.includes s t = true <-> JsString.occurs_in t s.
Proof.
  unfold JsString.occurs_in. induction s as [|a s IH]; simpl.
  - rewrite orb_false_r, startsWith_spec. split.
    + intros [post H]. now exists EmptyString, post.
    + intros [[|c pre] [post H]]; [now exists post | discriminate].
  - rewrite orb_true_iff, startsWith_spec, IH. split.
    + intros [[post H] | (pre & post & H)].
      * now exists EmptyString, post.
      * exists (String a pre), post. simpl. now rewrite H.
    + intros [[|c pre] [post H]].
      * left. now exists post.
      * right. injection H as _ H. now exists pre, post.
Qed.


(* ===================================================================== *)
(** ** Error classification *)
(* ===================================================================== *)

Lemma isTransientError_iff (error : MailError) :
  AlertManager.isTransientError error = true <-> transient_failure error.
Proof.
  unfold AlertManager.isTransientError, transient_failure, indicates.
  rewrite <- !includes_spec.
  destruct (bool_decide (error_statusCode error = Some 429)) eqn:E429.
  { apply bool_decide_eq_true in E429. simpl. tauto. }
  destruct (bool_decide (error_statusCode error = Some 503)) eqn:E503.
  { apply bool_decide_eq_true in E503. simpl. tauto. }
  apply bool_decide_eq_false in E429, E503. simpl.
  rewrite !orb_true_iff. tauto.
Qed.

(** C3: the classifier is a total function of the error alone; it answers
    "transient" exactly when the status is 429 or 503 or the lower-cased
    message contains "timeout", "network" or "econnrefused", "terminal"
    for every other error, and each error lands in exactly one bucket. *)
Theorem isTransientError_classifies (error : MailError) :
  (classify error = Transient <-> transient_failure error)
  /\ (classify error = Terminal <-> ~ transient_failure error)
  /\ (classify error = Transient \/ classify error = Terminal)
  /\ ~ (classify error = Transient /\ classify error = Terminal)
  /\ (exists verdict : bool, AlertManager.isTransientError error = verdict).
Proof.
  pose proof (isTransientError_iff error) as Hiff.
  unfold classify.
  destruct (AlertManager.isTransientError error) eqn:E.
  - assert (transient_failure error) as Ht by now apply Hiff.
    split; [tauto |]. split; [split; [discriminate | tauto] |].
    split; [now left |]. split; [intros [_ ?]; discriminate | now exists true].
  - assert (~ transient_failure error) as Hn
      by (intros Ht; apply Hiff in Ht; discriminate).
    split; [split; [discriminate | tauto] |]. split; [tauto |].
    split; [now right |]. split; [intros [? _]; discriminate | now exists false].
Qed.

Example classify_rate_limited :
  classify (mkMailError "Too many requests" (Some 429)) = Transient.
Proof. reflexivity. Qed.

Example classify_unavailable :
  classify (mkMailError "try later" (Some 503)) = Transient.
Proof. reflexivity. Qed.

Example classify_timeout_message :
  classify (mkMailError "Connection TIMEOUT" None) = Transient.
Proof. reflexivity. Qed.

Example classify_refused_message :
  classify (mkMailError "connect ECONNREFUSED 127.0.0.1:587" (Some 500)) = Transient.
Proof. reflexivity. Qed.

Example classify_authentication :
  classify (mkMailError "Invalid login" (Some 401)) = Terminal.
Proof. reflexivity. Qed.

Example classify_bad_recipient :
  classify (mkMailError "No recipients defined" (Some 400)) = Terminal.
Proof. reflexivity. Qed.

Example classify_unknown :
  classify (mkMailError "boom" None) = Terminal.
Proof. reflexivity. Qed.

(* ===================================================================== *)
(** ** The dispatcher: configuration failure and the empty retry loop *)
(* ===================================================================== *)

Section Dispatcher.

Context (env : Env) (this : AlertManager).

Lemma sendAlerts_no_sender alerts alertType severity from w :
  resolvedSender this from = None \/ resolvedSender this from = Some "" ->
  AlertManager.sendAlerts env this alerts alertType severity from w
  = (Returned (Err (noSenderError this alertType)),
     emit (EvSendAlerts alerts alertType severity) w).
Proof.
  unfold resolvedSender, AlertManager.sendAlerts.
  intros [H | H]; unfold bind, modify, date_now, gets; simpl; now rewrite H.
Qed.

End Dispatcher.

(* ===================================================================== *)
(** ** One attempt of the retry loop *)
(* ===================================================================== *)

Section Attempt.

Context (env : Env) (this : AlertManager).
Context (subject html : string) (alertType : AlertType) (fromEmail : string).

Let max := maxAttempts (retryConfig this).
Let mail := alertMail this subject html fromEmail.

(** What one iteration does, by the reply of the transport. *)
Lemma sendAttempt_cases (attempt : Z) (w : World) :
  AlertManager.sendAttempt env this subject html alertType fromEmail attempt w
  = match smtp env (mailerCalls w) with
    | Resolves r =>
        match res_error r with
        | Some error =>
            if negb (AlertManager.isTransientError error) || (attempt =? max - 1)
            then (Returned (Break (Err (deliveryFailed this alertType
                                          (error_message error) (attempt + 1)))),
                  sent mail w)
            else (Returned Continue, slept (backoff this attempt) (sent mail w))
        | None =>
            match res_data r with
            | Some data =>
                if JsString.truthy (data_id data)
                then (Returned (Break (Ok (mkEmailSent (data_id data) (clock w)))),
                      sent mail w)
                else (Returned (Break (Err (invalidResponse this alertType
                                              (res_data r)))),
                      sent mail w)
            | None =>
                (Returned (Break (Err (invalidResponse this alertType None))),
                 sent mail w)
            end
        end
    | Rejects reason =>
        if attempt <? max - 1
        then (Returned Continue, slept (backoff this attempt) (sent mail w))
        else (Returned (Break (Err (deliveryFailedAfterRetries this alertType
                                      reason (attempt + 1)))),
              sent mail w)
    end.
Proof.
  unfold AlertManager.sendAttempt, try_catch, bind, AlertManager.mailer_send.
  fold mail. subst max.
  destruct (smtp env (mailerCalls w)) as [r | reason]; simpl.
  - destruct (res_error r) as [error |]; simpl.
    + destruct (negb (AlertManager.isTransientError error)
                || (attempt =? maxAttempts (retryConfig this) - 1));
        reflexivity.
    + destruct (res_data r) as [data |]; [| reflexivity].
      destruct (JsString.truthy (data_id data)); reflexivity.
  - destruct (attempt <? maxAttempts (retryConfig this) - 1); reflexivity.
Qed.

End Attempt.

(* ===================================================================== *)
(** ** Reading the trace *)
(* ===================================================================== *)

Lemma sleeps_of_app (t1 t2 : list (Z * Event)) :
  sleeps_of (t1 ++ t2) = (sleeps_of t1 ++ sleeps_of t2)%list.
Proof.
  induction t1 as [| [t ev] t1 IH]; [reflexivity |].
  destruct ev; simpl; now rewrite IH.
Qed.

Lemma sends_of_app (t1 t2 : list (Z * Event)) :
  sends_of (t1 ++ t2) = (sends_of t1 ++ sends_of t2)%list.
Proof.
  induction t1 as [| [t ev] t1 IH]; [reflexivity |].
  destruct ev; simpl; now rewrite IH.
Qed.

Lemma dispatched_of_app (t1 t2 : list (Z * Event)) :
  dispatched_of (t1 ++ t2) = (dispatched_of t1 ++ dispatched_of t2)%list.
Proof.
  induction t1 as [| [t ev] t1 IH]; [reflexivity |].
  destruct ev; simpl; now rewrite IH.
Qed.

Lemma rendered_of_app (t1 t2 : list (Z * Event)) :
  rendered_of (t1 ++ t2) = (rendered_of t1 ++ rendered_of t2)%list.
Proof.
  induction t1 as [| [t ev] t1 IH]; [reflexivity |].
  destruct ev; simpl; now rewrite IH.
Qed.

(* ===================================================================== *)
(** ** The retry loop *)
(* ===================================================================== *)

(** The indices the loop of [sendWithRetry] visits are the [attempt]
    with [0 <= attempt < maxAttempts], which is its guard. *)
Lemma attempt_indices (this : AlertManager) (attempt : Z) :
  attempt ∈ seqZ 0 (maxAttempts (retryConfig this))
  <-> 0 <= attempt < maxAttempts (retryConfig this).
Proof. rewrite elem_of_seqZ. lia. Qed.

Lemma for_each_seqZ_succ {R} (body : Z -> M (Step R)) (after : M R)
      (a : Z) (k : nat) (w : World) :
  for_each (seqZ a (Z.of_nat (S k))) body after w
  = match body a w with
    | (Returned (Break r), w1) => (Returned r, w1)
    | (Returned Continue, w1) =>
        for_each (seqZ (a + 1) (Z.of_nat k)) body after w1
    | (Thrown reason, w1) => (Thrown reason, w1)
    end.
Proof.
  rewrite seqZ_cons by lia.
  replace (Z.pred (Z.of_nat (S k))) with (Z.of_nat k) by lia.
  replace (Z.succ a) with (a + 1) by lia.
  simpl. unfold bind.
  destruct (body a w) as [[[| r] | reason] w1]; reflexivity.
Qed.

Section Retry.

Context (env : Env) (this : AlertManager).
Context (subject html : string) (alertType : AlertType) (fromEmail : string).

Let max := maxAttempts (retryConfig this).
Let mail := alertMail this subject html fromEmail.
Let body := AlertManager.sendAttempt env this subject html alertType fromEmail.
Let after : M SendResult := ret (Err (fallbackFailure this alertType)).

(** The loop from index [a] with [k] iterations left, [a + k] being the
    configured bound: it returns, touches neither the singleton nor the
    failure history, dispatches and renders nothing, never turns the
    clock back, sleeps [backoff a], [backoff (a+1)], ... once after each
    attempt but the last it makes, and retries after every transient
    error that is not on the last allowed attempt. *)
Lemma retry_loop_inv (k : nat) :
  forall (a : Z) (w : World),
    a + Z.of_nat k = max ->
    exists (r : SendResult) (w' : World) (s : nat),
      for_each (seqZ a (Z.of_nat k)) body after w = (Returned r, w')
      /\ instance w' = instance w
      /\ failureHistory w' = failureHistory w
      /\ dispatched_of (trace w') = dispatched_of (trace w)
      /\ rendered_of (trace w') = rendered_of (trace w)
      /\ clock w <= clock w'
      /\ sleeps_of (trace w')
         = (sleeps_of (trace w) ++ (backoff this <$> seqZ a (Z.of_nat s)))%list
      /\ mailerCalls w'
         = match k with O => mailerCalls w | S _ => S (mailerCalls w + s) end
      /\ (forall i : nat,
             (i <= s)%nat -> k <> O ->
             transientReply (smtp env (mailerCalls w + i)) ->
             a + Z.of_nat i < max - 1 ->
             (i < s)%nat).
Proof.
  induction k as [| k IH]; intros a w Hbound.
  - exists (Err (fallbackFailure this alertType)), w, O. simpl.
    rewrite app_nil_r. repeat split; try reflexivity; try lia; congruence.
  - rewrite for_each_seqZ_succ. subst body.
    rewrite sendAttempt_cases. fold max mail.
    (* the world after an attempt that breaks out of the loop *)
    assert (forall r,
      exists (r0 : SendResult) (w' : World) (s : nat),
        (Returned r, sent mail w) = (Returned r0, w')
        /\ instance w' = instance w
        /\ failureHistory w' = failureHistory w
        /\ dispatched_of (trace w') = dispatched_of (trace w)
        /\ rendered_of (trace w') = rendered_of (trace w)
        /\ clock w <= clock w'
        /\ sleeps_of (trace w')
           = (sleeps_of (trace w) ++ (backoff this <$> seqZ a (Z.of_nat s)))%list
        /\ mailerCalls w' = S (mailerCalls w + s)
        /\ s = O) as Hbreak.
    { intros r. exists r, (sent mail w), O. simpl.
      rewrite sleeps_of_app, dispatched_of_app, rendered_of_app. simpl.
      rewrite !app_nil_r. repeat split; try reflexivity; lia. }
    (* the world after an attempt that sleeps and goes on *)
    assert (a <> max - 1 ->
      exists (r0 : SendResult) (w' : World) (s : nat),
        for_each (seqZ (a + 1) (Z.of_nat k))
          (AlertManager.sendAttempt env this subject html alertType fromEmail)
          after (slept (backoff this a) (sent mail w)) = (Returned r0, w')
        /\ instance w' = instance w
        /\ failureHistory w' = failureHistory w
        /\ dispatched_of (trace w') = dispatched_of (trace w)
        /\ rendered_of (trace w') = rendered_of (trace w)
        /\ clock w <= clock w'
        /\ sleeps_of (trace w')
           = (sleeps_of (trace w) ++ (backoff this <$> seqZ a (Z.of_nat s)))%list
        /\ mailerCalls w' = S (mailerCalls w + s)
        /\ (forall i : nat,
               (i <= s)%nat ->
               transientReply (smtp env (mailerCalls w + i)) ->
               a + Z.of_nat i < max - 1 ->
               (i < s)%nat)) as Hcontinue.
    { intros Hnotlast.
      destruct (IH (a + 1) (slept (backoff this a) (sent mail w)))
        as (r0 & w' & s & Hrun & Hinst & Hhist & Hdisp & Hrend & Hclock
            & Hsleeps & Hcalls & Hretry); [lia |].
      exists r0, w', (S s). split; [exact Hrun |].
      simpl in Hinst, Hhist, Hdisp, Hrend, Hclock, Hsleeps, Hcalls, Hretry.
      rewrite !dispatched_of_app in Hdisp. rewrite !rendered_of_app in Hrend.
      rewrite !sleeps_of_app in Hsleeps. simpl in Hdisp, Hrend, Hsleeps.
      rewrite !app_nil_r in Hdisp, Hrend. rewrite app_nil_r in Hsleeps.
      repeat split; try assumption.
      - lia.
      - rewrite Hsleeps, <- app_assoc. f_equal.
        rewrite (seqZ_cons a (Z.of_nat (S s))) by lia.
        replace (Z.succ a) with (a + 1) by lia.
        replace (Z.pred (Z.of_nat (S s))) with (Z.of_nat s) by lia.
        reflexivity.
      - rewrite Hcalls. destruct k as [| k']; lia.
      - intros [| j] Hle Htransient Hlt; [lia |].
        apply -> Nat.succ_lt_mono. apply Hretry.
        + lia.
        + destruct k; [lia | discriminate].
        + replace (S (mailerCalls w + j))%nat with (mailerCalls w + S j)%nat by lia.
          exact Htransient.
        + lia. }
    (* a transient error at an index below the last is never a break *)
    assert (forall i : nat, (i <= 0)%nat ->
              transientReply (smtp env (mailerCalls w + i)) ->
              exists r error,
                smtp env (mailerCalls w) = Resolves r
                /\ res_error r = Some error
                /\ AlertManager.isTransientError error = true) as Hreply.
    { intros i Hi (r & error & H1 & H2 & H3).
      replace (mailerCalls w + i)%nat with (mailerCalls w) in H1 by lia. eauto. }
    destruct (smtp env (mailerCalls w)) as [r | reason] eqn:Esmtp.
    + destruct (res_error r) as [error |] eqn:Eerr.
      * destruct (negb (AlertManager.isTransientError error) || (a =? max - 1))
          eqn:Estop.
        -- destruct (Hbreak (Err (deliveryFailed this alertType
                                    (error_message error) (a + 1))))
             as (r0 & w' & s & H & ? & ? & ? & ? & ? & ? & ? & ->).
           exists r0, w', O. repeat split; try assumption.
           intros i Hi _ Htr Hlt.
           destruct (Hreply i Hi Htr) as (r' & error' & Hr & He & Ht).
           injection Hr as <-. rewrite Eerr in He. injection He as <-.
           rewrite Ht in Estop. simpl in Estop. lia.
        -- apply orb_false_iff in Estop as [_ Hne].
           destruct Hcontinue as (r0 & w' & s & ? & ? & ? & ? & ? & ? & ? & ? & Hretry);
             [lia |].
           exists r0, w', s. repeat split; try assumption.
           intros i Hi _. now apply Hretry.
      * assert (forall i : nat, (i <= 0)%nat ->
                  transientReply (smtp env (mailerCalls w + i)) -> False) as Hno.
        { intros i Hi Htr.
          destruct (Hreply i Hi Htr) as (r' & error' & Hr & He & _).
          injection Hr as <-. congruence. }
        destruct (res_data r) as [data |].
        -- destruct (JsString.truthy (data_id data)).
           ++ destruct (Hbreak (Ok (mkEmailSent (data_id data) (clock w))))
                as (r0 & w' & s & H & ? & ? & ? & ? & ? & ? & ? & ->).
              exists r0, w', O. repeat split; try assumption.
              intros i Hi _ Htr _. destruct (Hno i Hi Htr).
           ++ destruct (Hbreak (Err (invalidResponse this alertType (Some data))))
                as (r0 & w' & s & H & ? & ? & ? & ? & ? & ? & ? & ->).
              exists r0, w', O. repeat split; try assumption.
              intros i Hi _ Htr _. destruct (Hno i Hi Htr).
        -- destruct (Hbreak (Err (invalidResponse this alertType None)))
             as (r0 & w' & s & H & ? & ? & ? & ? & ? & ? & ? & ->).
           exists r0, w', O. repeat split; try assumption.
           intros i Hi _ Htr _. destruct (Hno i Hi Htr).
    + destruct (a <? max - 1) eqn:Elt.
      * apply Z.ltb_lt in Elt.
        destruct Hcontinue as (r0 & w' & s & ? & ? & ? & ? & ? & ? & ? & ? & Hretry);
          [lia |].
        exists r0, w', s. repeat split; try assumption.
        intros i Hi _. now apply Hretry.
      * destruct (Hbreak (Err (deliveryFailedAfterRetries this alertType
                                  reason (a + 1))))
          as (r0 & w' & s & H & ? & ? & ? & ? & ? & ? & ? & ->).
        exists r0, w', O. repeat split; try assumption.
        intros i Hi _ Htr _.
        destruct (Hreply i Hi Htr) as (r' & error' & Hr & _). discriminate.
Qed.

End Retry.

Section RetryRuns.

Context (env : Env) (this : AlertManager).
Context (subject html : string) (alertType : AlertType) (fromEmail : string).

Let max := maxAttempts (retryConfig this).
Let mail := alertMail this subject html fromEmail.
Let body := AlertManager.sendAttempt env this subject html alertType fromEmail.
Let after : M SendResult := ret (Err (fallbackFailure this alertType)).

(** Transient errors on every remaining attempt: the loop stops at the
    last index with the failure that counts all [max] attempts. *)
Lemma retry_loop_exhausts (k : nat) :
  forall (a : Z) (w : World),
    a + Z.of_nat (S k) = max ->
    (forall i : nat, (i <= k)%nat ->
                     transientReply (smtp env (mailerCalls w + i))) ->
    exists (reason : string) (w' : World),
      for_each (seqZ a (Z.of_nat (S k))) body after w
      = (Returned (Err (deliveryFailed this alertType reason max)), w')
      /\ mailerCalls w' = (mailerCalls w + S k)%nat.
Proof.
  induction k as [| k IH]; intros a w Hbound Hall;
    rewrite for_each_seqZ_succ; subst body;
    rewrite sendAttempt_cases; fold max;
    destruct (Hall O ltac:(lia)) as (r & error & Hr & He & Ht);
    rewrite Nat.add_0_r in Hr; rewrite Hr, He, Ht; simpl.
  - replace (a =? max - 1) with true by (symmetry; apply Z.eqb_eq; lia).
    exists (error_message error), (sent (alertMail this subject html fromEmail) w).
    split; [| simpl; lia]. do 4 f_equal. lia.
  - replace (a =? max - 1) with false by (symmetry; apply Z.eqb_neq; lia).
    destruct (IH (a + 1)
                (slept (backoff this a)
                   (sent (alertMail this subject html fromEmail) w)))
      as (reason & w' & Hrun & Hcalls); [lia | |].
    + intros i Hi. simpl.
      replace (S (mailerCalls w + i))%nat with (mailerCalls w + S i)%nat by lia.
      apply Hall. lia.
    + exists reason, w'. split; [exact Hrun |]. simpl in Hcalls. lia.
Qed.

(** Retryable failures on every attempt before the last and a message
    id on the last: the loop returns that id. *)
Lemma retry_loop_succeeds_last (k : nat) (id : string) :
  forall (a : Z) (w : World),
    a + Z.of_nat (S k) = max ->
    (forall i : nat, (i < k)%nat ->
                     retryableReply (smtp env (mailerCalls w + i))) ->
    successReply id (smtp env (mailerCalls w + k)) ->
    exists w' : World,
      for_each (seqZ a (Z.of_nat (S k))) body after w
      = (Returned (Ok (mkEmailSent id (clock w'))), w')
      /\ mailerCalls w' = (mailerCalls w + S k)%nat.
Proof.
  induction k as [| k IH]; intros a w Hbound Hretry Hok;
    rewrite for_each_seqZ_succ; subst body;
    rewrite sendAttempt_cases; fold max.
  - destruct Hok as (r & Hr & He & Hd & Hid).
    rewrite Nat.add_0_r in Hr. rewrite Hr, He, Hd. simpl.
    destruct id as [| c id']; [congruence |]. simpl.
    exists (sent (alertMail this subject html fromEmail) w).
    split; [reflexivity | simpl; lia].
  - assert (exists w',
              for_each (seqZ (a + 1) (Z.of_nat (S k)))
                (AlertManager.sendAttempt env this subject html alertType fromEmail)
                after
                (slept (backoff this a)
                   (sent (alertMail this subject html fromEmail) w))
              = (Returned (Ok (mkEmailSent id (clock w'))), w')
              /\ mailerCalls w' = (mailerCalls w + S (S k))%nat)
      as (w' & Hrun & Hcalls).
    { destruct (IH (a + 1)
                  (slept (backoff this a)
                     (sent (alertMail this subject html fromEmail) w)))
        as (w' & Hrun & Hcalls); [lia | | |].
      - intros i Hi. simpl.
        replace (S (mailerCalls w + i))%nat with (mailerCalls w + S i)%nat by lia.
        apply Hretry. lia.
      - simpl.
        replace (S (mailerCalls w + k))%nat with (mailerCalls w + S k)%nat by lia.
        exact Hok.
      - exists w'. split; [exact Hrun |]. simpl in Hcalls. lia. }
    destruct (Hretry O ltac:(lia)) as [(r & error & Hr & He & Ht) | [reason Hr]];
      rewrite Nat.add_0_r in Hr; rewrite Hr.
    + rewrite He, Ht. simpl.
      replace (a =? max - 1) with false by (symmetry; apply Z.eqb_neq; lia).
      exists w'. now split.
    + replace (a <? max - 1) with true by (symmetry; apply Z.ltb_lt; lia).
      exists w'. now split.
Qed.

(** [sendWithRetry] as a whole. *)
Lemma sendWithRetry_inv (w : World) :
  exists (r : SendResult) (w' : World) (s : nat),
    AlertManager.sendWithRetry env this subject html alertType fromEmail w
    = (Returned r, w')
    /\ instance w' = instance w
    /\ failureHistory w' = failureHistory w
    /\ dispatched_of (trace w') = dispatched_of (trace w)
    /\ rendered_of (trace w') = rendered_of (trace w)
    /\ clock w <= clock w'
    /\ sleeps_of (trace w')
       = (sleeps_of (trace w) ++ (backoff this <$> seqZ 0 (Z.of_nat s)))%list
    /\ (max <= 0 /\ mailerCalls w' = mailerCalls w
        \/ 0 < max /\ mailerCalls w' = S (mailerCalls w + s))
    /\ (forall i : nat,
           (i <= s)%nat -> 0 < max ->
           transientReply (smtp env (mailerCalls w + i)) ->
           Z.of_nat i < max - 1 ->
           (i < s)%nat).
Proof.
  unfold AlertManager.sendWithRetry. fold max.
  destruct (Z_le_gt_dec max 0) as [Hle | Hgt].
  - rewrite seqZ_nil by exact Hle. simpl.
    exists (Err (fallbackFailure this alertType)), w, O. simpl.
    rewrite app_nil_r. repeat split; try reflexivity; try lia.
  - destruct (retry_loop_inv env this subject html alertType fromEmail
                (Z.to_nat max) 0 w)
      as (r & w' & s & Hrun & ? & ? & ? & ? & ? & ? & Hcalls & Hretry);
      [fold max; lia |].
    rewrite Z2Nat.id in Hrun by lia.
    exists r, w', s. split; [exact Hrun |]. repeat split; try assumption.
    + right. split; [lia |]. rewrite Hcalls.
      destruct (Z.to_nat max) eqn:E; [lia | reflexivity].
    + intros i Hi _ Htr Hlt. apply Hretry; try assumption; lia.
Qed.

End RetryRuns.

(* ===================================================================== *)
(** ** Properties of [sendWithRetry] *)
(* ===================================================================== *)

(** C10: with [maxAttempts] zero or negative the loop body never runs:
    [sendWithRetry] leaves the world as it found it (no transport send,
    no sleep) and returns the failure after the loop, "Failed to send
    alert email" with the configured attempt count, rather than
    throwing or succeeding. *)
Theorem sendWithRetry_without_attempts
        (env : Env) (this : AlertManager) (subject html : string)
        (alertType : AlertType) (fromEmail : string) (w : World) :
  maxAttempts (retryConfig this) <= 0 ->
  AlertManager.sendWithRetry env this subject html alertType fromEmail w
  = (Returned (Err (fallbackFailure this alertType)), w)
  /\ err_message (fallbackFailure this alertType) = "Failed to send alert email"
  /\ err_context (fallbackFailure this alertType)
     = CtxAttempts (maxAttempts (retryConfig this)).
Proof.
  intros Hmax. unfold AlertManager.sendWithRetry.
  rewrite seqZ_nil by exact Hmax. now repeat split.
Qed.

Lemma sendWithRetry_without_attempts_witness :
  let this := AlertManager.constructor (Scenario.withRetry 0 [1000]) in
  let w := Scenario.boot 0 (Some this) in
  AlertManager.sendWithRetry (Scenario.envOf (fun _ => Scenario.delivered "m-1"))
    this "subject" "<p/>" JOB_FAILURE "alerts@yourcompany.com" w
  = (Returned (Err (fallbackFailure this JOB_FAILURE)), w).
Proof.
  intros this w.
  apply (sendWithRetry_without_attempts
           (Scenario.envOf (fun _ => Scenario.delivered "m-1"))
           this "subject" "<p/>" JOB_FAILURE "alerts@yourcompany.com" w).
  vm_compute. discriminate.
Defined.

Lemma backoff_configuredDelay (this : AlertManager) (i : nat) :
  backoff this (Z.of_nat i) = configuredDelay this i.
Proof.
  unfold backoff, configuredDelay, js_index.
  replace (Z.of_nat i <? 0) with false by (symmetry; apply Z.ltb_ge; lia).
  rewrite Nat2Z.id. now destruct (delays (retryConfig this) !! i).
Qed.

(** C4, as the code has it: whenever attempt [i] meets a transient error
    and attempts remain, the i-th pause of the run lasts [delays[i]] if
    the list has an i-th entry and 1000 ms otherwise, and the next
    attempt follows it. *)
Theorem sendWithRetry_backoff
        (env : Env) (this : AlertManager) (subject html : string)
        (alertType : AlertType) (fromEmail : string) (w : World) (i : nat) :
  let w' := exec (AlertManager.sendWithRetry env this subject html alertType
                    fromEmail) w in
  let pauses := drop (length (sleeps_of (trace w))) (sleeps_of (trace w')) in
  (i < mailerCalls w' - mailerCalls w)%nat ->
  transientReply (smtp env (mailerCalls w + i)) ->
  Z.of_nat i < maxAttempts (retryConfig this) - 1 ->
  exists d : Z,
    pauses !! i = Some d
    /\ (forall d', delays (retryConfig this) !! i = Some d' -> d = d')
    /\ ((length (delays (retryConfig this)) <= i)%nat -> d = 1000)
    /\ (S i < mailerCalls w' - mailerCalls w)%nat.
Proof.
  intros w' pauses Hmade Htransient Hremain.
  destruct (sendWithRetry_inv env this subject html alertType fromEmail w)
    as (r & w1 & s & Hrun & _ & _ & _ & _ & _ & Hsleeps & Hcalls & Hretry).
  assert (w' = w1) as Hw' by (unfold w', exec; now rewrite Hrun).
  subst pauses. rewrite Hw' in *. clear w' Hw'.
  destruct Hcalls as [[_ Hcalls] | [Hpos Hcalls]]; [lia |].
  assert (i < s)%nat as Hi by (apply Hretry; try assumption; lia).
  exists (configuredDelay this i).
  rewrite Hsleeps, drop_app_length, list_lookup_fmap.
  rewrite lookup_seqZ_lt by lia. simpl. rewrite Z.add_0_l, backoff_configuredDelay.
  repeat split.
  - unfold configuredDelay. intros d' ->. reflexivity.
  - unfold configuredDelay. intros Hlen.
    now rewrite lookup_ge_None_2 by exact Hlen.
  - lia.
Qed.

Lemma sendWithRetry_backoff_witness :
  let env := Scenario.envOf (fun _ => Scenario.unavailable) in
  let this := AlertManager.constructor (Scenario.withRetry 4 [500; 700]) in
  let w := Scenario.boot 0 (Some this) in
  let w' := exec (AlertManager.sendWithRetry env this "subject" "<p/>"
                    JOB_FAILURE "alerts@yourcompany.com") w in
  exists d : Z,
    drop (length (sleeps_of (trace w))) (sleeps_of (trace w')) !! 1%nat = Some d
    /\ (forall d', delays (retryConfig this) !! 1%nat = Some d' -> d = d')
    /\ ((length (delays (retryConfig this)) <= 1)%nat -> d = 1000)
    /\ (2 < mailerCalls w' - mailerCalls w)%nat.
Proof.
  intros env this w.
  apply (sendWithRetry_backoff env this "subject" "<p/>" JOB_FAILURE
           "alerts@yourcompany.com" w 1).
  - vm_compute. lia.
  - exists (mkSendEmailResult None
              (Some (mkMailError "Service unavailable" (Some 503)))),
           (mkMailError "Service unavailable" (Some 503)).
    repeat split; reflexivity.
  - vm_compute. reflexivity.
Defined.

(** C4 as the spec words it fails: with [delays = [500]] and three
    attempts, attempt 1 lies beyond the list and meets a transient error
    with an attempt remaining; the code then sleeps 1000 ms, not the
    last configured delay of 500 ms. *)
Lemma backoff_beyond_delays_counterexample :
  let env := Scenario.envOf (fun _ => Scenario.unavailable) in
  let this := AlertManager.constructor (Scenario.withRetry 3 [500]) in
  let w' := exec (AlertManager.sendWithRetry env this "subject" "<p/>"
                    JOB_FAILURE "alerts@yourcompany.com")
                 (Scenario.boot 0 (Some this)) in
  transientReply (smtp env 1)
  /\ 1 < maxAttempts (retryConfig this) - 1
  /\ (length (delays (retryConfig this)) <= 1)%nat
  /\ last (delays (retryConfig this)) = Some 500
  /\ sleeps_of (trace w') = [500; 1000]
  /\ sleeps_of (trace w') !! 1%nat <> last (delays (retryConfig this)).
Proof.
  intros env this w'. split.
  { exists (mkSendEmailResult None
              (Some (mkMailError "Service unavailable" (Some 503)))),
           (mkMailError "Service unavailable" (Some 503)).
    repeat split; reflexivity. }
  split; [vm_compute; reflexivity |].
  split; [vm_compute; lia |].
  split; [reflexivity |].
  split; [vm_compute; reflexivity |].
  vm_compute. discriminate.
Qed.

(* ===================================================================== *)
(** ** Properties of [sendAlerts] *)
(* ===================================================================== *)

Section SendAlerts.

Context (env : Env) (this : AlertManager).

(** With a sender and a rendered page, [sendAlerts] is [sendWithRetry]
    run after the two events of its prologue. *)
Lemma sendAlerts_reaches_retry
      (alerts : list Alert) (alertType : AlertType) (severity : AlertSeverity)
      (from : option string) (sender html : string) (w : World) :
  resolvedSender this from = Some sender ->
  sender <> "" ->
  renderTemplate env alerts alertType severity = inl html ->
  AlertManager.sendAlerts env this alerts alertType severity from w
  = AlertManager.sendWithRetry env this
      (AlertManager.getAlertSubject severity alertType) html alertType sender
      (emit (EvRender alerts) (emit (EvSendAlerts alerts alertType severity) w)).
Proof.
  intros Hsender Hne Hrender.
  destruct (sendWithRetry_inv env this
              (AlertManager.getAlertSubject severity alertType) html alertType
              sender
              (emit (EvRender alerts)
                 (emit (EvSendAlerts alerts alertType severity) w)))
    as (r & w' & s & Hrun & _).
  rewrite Hrun.
  unfold resolvedSender in Hsender.
  unfold AlertManager.sendAlerts, bind, modify, date_now, gets, try_catch,
    AlertManager.render. simpl.
  rewrite Hsender.
  destruct sender as [| c sender]; [congruence |]. simpl.
  rewrite Hrender. unfold ret at 1. simpl. rewrite Hrun.
  destruct (isErr r); reflexivity.
Qed.

Lemma sendAlerts_render_fails
      (alerts : list Alert) (alertType : AlertType) (severity : AlertSeverity)
      (from : option string) (sender reason : string) (w : World) :
  resolvedSender this from = Some sender ->
  sender <> "" ->
  renderTemplate env alerts alertType severity = inr reason ->
  AlertManager.sendAlerts env this alerts alertType severity from w
  = (Returned (Err
       {| err_message := "Failed to render alert email template";
          err_alertType := AlertType_str alertType;
          err_recipient := cfg_adminEmail (config this);
          err_context := CtxText (Some reason) |}),
     emit (EvRender alerts) (emit (EvSendAlerts alerts alertType severity) w)).
Proof.
  intros Hsender Hne Hrender.
  unfold resolvedSender in Hsender.
  unfold AlertManager.sendAlerts, bind, modify, date_now, gets, try_catch,
    AlertManager.render. simpl.
  rewrite Hsender.
  destruct sender as [| c sender]; [congruence |]. simpl.
  now rewrite Hrender.
Qed.

(** [sendAlerts] always returns a result: it never throws, leaves the
    singleton and the failure history alone, records exactly its own
    batch as dispatched and never turns the clock back. *)
Lemma sendAlerts_frame
      (alerts : list Alert) (alertType : AlertType) (severity : AlertSeverity)
      (from : option string) (w : World) :
  exists (r : SendResult) (w' : World),
    AlertManager.sendAlerts env this alerts alertType severity from w
    = (Returned r, w')
    /\ instance w' = instance w
    /\ failureHistory w' = failureHistory w
    /\ dispatched_of (trace w')
       = (dispatched_of (trace w) ++ [(clock w, alerts)])%list
    /\ clock w <= clock w'.
Proof.
  destruct (resolvedSender this from) as [sender |] eqn:Hsender.
  2: { rewrite sendAlerts_no_sender by now left.
       eexists _, _. split; [reflexivity |]. simpl.
       rewrite dispatched_of_app. repeat split; reflexivity || lia. }
  destruct (string_dec sender "") as [-> | Hne].
  { rewrite sendAlerts_no_sender by now right.
    eexists _, _. split; [reflexivity |]. simpl.
    rewrite dispatched_of_app. repeat split; reflexivity || lia. }
  destruct (renderTemplate env alerts alertType severity) as [html | reason]
    eqn:Hrender.
  - rewrite (sendAlerts_reaches_retry _ _ _ _ _ _ _ Hsender Hne Hrender).
    destruct (sendWithRetry_inv env this
                (AlertManager.getAlertSubject severity alertType) html
                alertType sender
                (emit (EvRender alerts)
                   (emit (EvSendAlerts alerts alertType severity) w)))
      as (r & w' & s & Hrun & Hinst & Hhist & Hdisp & _ & Hclock & _).
    exists r, w'. split; [exact Hrun |].
    simpl in Hinst, Hhist, Hdisp, Hclock.
    rewrite !dispatched_of_app in Hdisp. simpl in Hdisp.
    rewrite app_nil_r in Hdisp. now repeat split.
  - rewrite (sendAlerts_render_fails _ _ _ _ _ _ _ Hsender Hne Hrender).
    eexists _, _. split; [reflexivity |]. simpl.
    rewrite !dispatched_of_app. simpl. rewrite app_nil_r.
    repeat split; reflexivity || lia.
Qed.

End SendAlerts.

Lemma emit_mailerCalls (ev : Event) (w : World) :
  mailerCalls (emit ev w) = mailerCalls w.
Proof. reflexivity. Qed.

(** C2: with [maxAttempts >= 1], a sender and a rendered page,
    [sendAlerts] (through [sendWithRetry]) returns a failure that
    reports exactly [maxAttempts] attempts when every attempt meets a
    transient error, and returns the success carrying the transport's
    message id when the last allowed attempt, index [maxAttempts - 1],
    succeeds after retryable failures. *)
Theorem sendAlerts_retry_outcomes
        (env : Env) (this : AlertManager)
        (alerts : list Alert) (alertType : AlertType) (severity : AlertSeverity)
        (from : option string) (sender html : string) (w : World) :
  1 <= maxAttempts (retryConfig this) ->
  resolvedSender this from = Some sender ->
  sender <> "" ->
  renderTemplate env alerts alertType severity = inl html ->
  ((forall i : nat, Z.of_nat i < maxAttempts (retryConfig this) ->
                    transientReply (smtp env (mailerCalls w + i))) ->
   exists (e : AlertError) (w' : World),
     AlertManager.sendAlerts env this alerts alertType severity from w
     = (Returned (Err e), w')
     /\ reportedAttempts e = Some (maxAttempts (retryConfig this))
     /\ Z.of_nat (mailerCalls w')
        = Z.of_nat (mailerCalls w) + maxAttempts (retryConfig this))
  /\ (forall id : string,
        (forall i : nat, Z.of_nat i < maxAttempts (retryConfig this) - 1 ->
                         retryableReply (smtp env (mailerCalls w + i))) ->
        successReply id
          (smtp env (mailerCalls w
                     + Z.to_nat (maxAttempts (retryConfig this) - 1))) ->
        exists w' : World,
          AlertManager.sendAlerts env this alerts alertType severity from w
          = (Returned (Ok (mkEmailSent id (clock w'))), w')
          /\ Z.of_nat (mailerCalls w')
             = Z.of_nat (mailerCalls w) + maxAttempts (retryConfig this)).
Proof.
  intros Hmax Hsender Hne Hrender.
  rewrite (sendAlerts_reaches_retry env this _ _ _ _ _ _ w Hsender Hne Hrender).
  unfold AlertManager.sendWithRetry.
  set (w0 := emit (EvRender alerts)
               (emit (EvSendAlerts alerts alertType severity) w)).
  assert (mailerCalls w0 = mailerCalls w) as Hcalls0 by reflexivity.
  set (k := Z.to_nat (maxAttempts (retryConfig this) - 1)).
  assert (maxAttempts (retryConfig this) = Z.of_nat (S k)) as Hk by lia.
  split.
  - intros Hall.
    destruct (retry_loop_exhausts env this
                (AlertManager.getAlertSubject severity alertType) html
                alertType sender k 0 w0)
      as (reason & w' & Hrun & Hcalls); [lia | |].
    + intros i Hi. rewrite Hcalls0. apply Hall. lia.
    + rewrite <- Hk in Hrun.
      eexists _, w'. split; [exact Hrun |]. split; [reflexivity | lia].
  - intros id Hretry Hok.
    destruct (retry_loop_succeeds_last env this
                (AlertManager.getAlertSubject severity alertType) html
                alertType sender k id 0 w0)
      as (w' & Hrun & Hcalls); [lia | | |].
    + intros i Hi. rewrite Hcalls0. apply Hretry. lia.
    + rewrite Hcalls0. exact Hok.
    + rewrite <- Hk in Hrun. exists w'. split; [exact Hrun | lia].
Qed.

Lemma sendAlerts_retry_outcomes_witness :
  let this := AlertManager.constructor Scenario.documented in
  let alerts := [Scenario.jobFailure 0 "Digest generation failed"] in
  let w := Scenario.boot 0 (Some this) in
  (exists (e : AlertError) (w' : World),
     AlertManager.sendAlerts (Scenario.envOf (fun _ => Scenario.unavailable))
       this alerts JOB_FAILURE CRITICAL None w
     = (Returned (Err e), w')
     /\ reportedAttempts e = Some 3
     /\ Z.of_nat (mailerCalls w') = Z.of_nat (mailerCalls w) + 3)
  /\ (exists w' : World,
        AlertManager.sendAlerts
          (Scenario.envOf (fun n => match n with
                                    | 2%nat => Scenario.delivered "m-42"
                                    | _ => Scenario.unavailable
                                    end))
          this alerts JOB_FAILURE CRITICAL None w
        = (Returned (Ok (mkEmailSent "m-42" (clock w'))), w')
        /\ Z.of_nat (mailerCalls w') = Z.of_nat (mailerCalls w) + 3).
Proof.
  intros this alerts w.
  assert (transientReply Scenario.unavailable) as Htransient.
  { exists (mkSendEmailResult None
              (Some (mkMailError "Service unavailable" (Some 503)))),
           (mkMailError "Service unavailable" (Some 503)).
    repeat split; reflexivity. }
  split.
  - apply (sendAlerts_retry_outcomes
             (Scenario.envOf (fun _ => Scenario.unavailable)) this alerts
             JOB_FAILURE CRITICAL None "alerts@yourcompany.com"
             "<html></html>" w);
      [vm_compute; discriminate | reflexivity | discriminate | reflexivity |].
    intros i _. exact Htransient.
  - apply (sendAlerts_retry_outcomes
             (Scenario.envOf (fun n => match n with
                                       | 2%nat => Scenario.delivered "m-42"
                                       | _ => Scenario.unavailable
                                       end)) this alerts
             JOB_FAILURE CRITICAL None "alerts@yourcompany.com"
             "<html></html>" w);
      [vm_compute; discriminate | reflexivity | discriminate | reflexivity | |].
    + intros i Hi. left.
      destruct i as [| [| i]]; [exact Htransient | exact Htransient |].
      change (maxAttempts (retryConfig this)) with 3 in Hi. lia.
    + exists (mkSendEmailResult (Some (mkMailData "m-42")) None).
      repeat split; try reflexivity. discriminate.
Defined.

(** C8: with no sender address in the configuration and none in the
    options, [sendAlerts] (and [sendAlert]) returns the configuration
    failure at once: nothing is rendered, the transport is not called
    and nothing is retried or slept. *)
Theorem sendAlerts_without_sender
        (env : Env) (this : AlertManager)
        (alerts : list Alert) (alertType : AlertType) (severity : AlertSeverity)
        (w : World) :
  cfg_fromEmail (config this) = None ->
  let w' := emit (EvSendAlerts alerts alertType severity) w in
  AlertManager.sendAlerts env this alerts alertType severity None w
  = (Returned (Err (noSenderError this alertType)), w')
  /\ (forall alert : Alert,
        AlertManager.sendAlert env this alert None w
        = (Returned (Err (noSenderError this (alert_type alert))),
           emit (EvSendAlerts [alert] (alert_type alert) (alert_severity alert)) w))
  /\ err_message (noSenderError this alertType) = "No from email provided"
  /\ rendered_of (trace w') = rendered_of (trace w)
  /\ sends_of (trace w') = sends_of (trace w)
  /\ sleeps_of (trace w') = sleeps_of (trace w)
  /\ mailerCalls w' = mailerCalls w
  /\ clock w' = clock w.
Proof.
  intros Hcfg w'.
  assert (resolvedSender this None = None) as Hnone
    by (unfold resolvedSender; simpl; exact Hcfg).
  split; [apply sendAlerts_no_sender; now left |].
  split; [intros alert; unfold AlertManager.sendAlert;
          apply sendAlerts_no_sender; now left |].
  subst w'. simpl.
  rewrite rendered_of_app, sends_of_app, sleeps_of_app. simpl.
  rewrite !app_nil_r. now repeat split.
Qed.

Lemma sendAlerts_without_sender_witness :
  let this := AlertManager.constructor Scenario.withoutSender in
  let alerts := [Scenario.jobFailure 0 "Digest generation failed"] in
  let w := Scenario.boot 0 (Some this) in
  AlertManager.sendAlerts (Scenario.envOf (fun _ => Scenario.delivered "m-1"))
    this alerts JOB_FAILURE CRITICAL None w
  = (Returned (Err (noSenderError this JOB_FAILURE)),
     emit (EvSendAlerts alerts JOB_FAILURE CRITICAL) w).
Proof.
  intros this alerts w.
  apply (sendAlerts_without_sender
           (Scenario.envOf (fun _ => Scenario.delivered "m-1"))
           this alerts JOB_FAILURE CRITICAL w).
  reflexivity.
Defined.

(* ===================================================================== *)
(** ** [sendCustomEmail] *)
(* ===================================================================== *)

(** C5 as the spec words it fails: the first reply is a transient 503
    and two of three attempts remain; [sendAlerts] sleeps 1000 ms and
    succeeds on its second send, while [sendCustomEmail] fails after its
    only send without sleeping. *)
Lemma sendCustomEmail_retry_counterexample :
  let env := Scenario.envOf (fun n => match n with
                                      | O => Scenario.unavailable
                                      | _ => Scenario.delivered "m-7"
                                      end) in
  let this := AlertManager.constructor Scenario.documented in
  let w := Scenario.boot 0 (Some this) in
  let custom := AlertManager.sendCustomEmail env this None None "subject"
                  "<p/>" None in
  let templated := AlertManager.sendAlerts env this
                     [Scenario.jobFailure 0 "Digest generation failed"]
                     JOB_FAILURE CRITICAL None in
  transientReply (smtp env 0)
  /\ 0 < maxAttempts (retryConfig this) - 1
  /\ eval templated w = Returned (Ok (mkEmailSent "m-7" 1000))
  /\ mailerCalls (exec templated w) = 2%nat
  /\ sleeps_of (trace (exec templated w)) = [1000]
  /\ eval custom w
     = Returned (Err (customEmailFailed this None (Some "Service unavailable")))
  /\ mailerCalls (exec custom w) = 1%nat
  /\ sleeps_of (trace (exec custom w)) = [].
Proof.
  intros env this w custom templated. split.
  { exists (mkSendEmailResult None
              (Some (mkMailError "Service unavailable" (Some 503)))),
           (mkMailError "Service unavailable" (Some 503)).
    repeat split; reflexivity. }
  repeat split; vm_compute; reflexivity.
Qed.

(** C5, as the code has it: once a sender is known, [sendCustomEmail]
    hands the message to the transport exactly once and never sleeps,
    whatever the retry policy is; any transport error, transient or
    terminal, comes back at once as "Failed to send custom email" with
    the transport's message, and a rejected send is rethrown. *)
Theorem sendCustomEmail_single_attempt
        (env : Env) (this : AlertManager) (from to : option string)
        (subject html : string) (text : option string) (sender : string)
        (w : World) :
  resolvedSender this from = Some sender ->
  sender <> "" ->
  let run := AlertManager.sendCustomEmail env this from to subject html text in
  exec run w = sent (customMail this to subject html text sender) w
  /\ mailerCalls (exec run w) = S (mailerCalls w)
  /\ sleeps_of (trace (exec run w)) = sleeps_of (trace w)
  /\ clock (exec run w) = clock w
  /\ (forall r error,
        smtp env (mailerCalls w) = Resolves r ->
        res_error r = Some error ->
        eval run w
        = Returned (Err (customEmailFailed this to (Some (error_message error)))))
  /\ (forall reason,
        smtp env (mailerCalls w) = Rejects reason ->
        eval run w = Thrown reason).
Proof.
  intros Hsender Hne run.
  unfold resolvedSender in Hsender.
  assert (forall o, run w = (o, exec run w) -> eval run w = o) as Heval
    by (intros o H; unfold eval; now rewrite H).
  assert (run w
          = match smtp env (mailerCalls w) with
            | Resolves r =>
                match res_error r, res_data r with
                | None, Some data =>
                    (Returned (Ok (mkEmailSent (data_id data) (clock w))),
                     sent (customMail this to subject html text sender) w)
                | error, _ =>
                    (Returned (Err (customEmailFailed this to
                                      (optional_chain error
                                         (fun e => Some (error_message e))))),
                     sent (customMail this to subject html text sender) w)
                end
            | Rejects reason =>
                (Thrown reason,
                 sent (customMail this to subject html text sender) w)
            end) as Hrun.
  { subst run. unfold AlertManager.sendCustomEmail. rewrite Hsender.
    destruct sender as [| c sender]; [congruence |]. simpl.
    unfold bind, AlertManager.mailer_send.
    destruct (smtp env (mailerCalls w)) as [r | reason]; [| reflexivity].
    destruct (res_error r), (res_data r); reflexivity. }
  assert (exec run w = sent (customMail this to subject html text sender) w)
    as Hexec.
  { unfold exec. rewrite Hrun.
    destruct (smtp env (mailerCalls w)) as [r | reason]; [| reflexivity].
    destruct (res_error r), (res_data r); reflexivity. }
  split; [exact Hexec |]. rewrite Hexec. simpl.
  rewrite sleeps_of_app. simpl. rewrite app_nil_r.
  repeat split.
  - intros r error Hr He. unfold eval. rewrite Hrun, Hr, He. reflexivity.
  - intros reason Hr. unfold eval. rewrite Hrun, Hr. reflexivity.
Qed.

Lemma sendCustomEmail_single_attempt_witness :
  let env := Scenario.envOf (fun _ => Scenario.unavailable) in
  let this := AlertManager.constructor Scenario.documented in
  let w := Scenario.boot 0 (Some this) in
  let run := AlertManager.sendCustomEmail env this None None "subject" "<p/>"
               None in
  mailerCalls (exec run w) = 1%nat
  /\ eval run w
     = Returned (Err (customEmailFailed this None (Some "Service unavailable"))).
Proof.
  intros env this w run.
  destruct (sendCustomEmail_single_attempt env this None None "subject" "<p/>"
              None "alerts@yourcompany.com" w)
    as (_ & Hcalls & _ & _ & Herror & _);
    [reflexivity | discriminate |].
  split; [exact Hcalls |].
  apply (Herror (mkSendEmailResult None
                   (Some (mkMailError "Service unavailable" (Some 503))))
                (mkMailError "Service unavailable" (Some 503)));
    reflexivity.
Defined.

(* ===================================================================== *)
(** ** [sendAlert] and the debounce window *)
(* ===================================================================== *)

(** [sendAlert] hands its one alert to [sendAlerts] in the call itself. *)
Lemma sendAlert_is_sendAlerts
      (env : Env) (this : AlertManager) (alert : Alert) (from : option string) :
  AlertManager.sendAlert env this alert from
  = AlertManager.sendAlerts env this [alert] (alert_type alert)
      (alert_severity alert) from.
Proof. reflexivity. Qed.

(** Every [sendAlert] call is a batch of its own, made of the one alert
    and handed over at the time of the call. *)
Lemma sendAlert_dispatches_at_once
      (env : Env) (this : AlertManager) (alert : Alert) (from : option string)
      (w : World) :
  dispatched_of (trace (exec (AlertManager.sendAlert env this alert from) w))
  = (dispatched_of (trace w) ++ [(clock w, [alert])])%list.
Proof.
  rewrite sendAlert_is_sendAlerts. unfold exec.
  destruct (sendAlerts_frame env this [alert] (alert_type alert)
              (alert_severity alert) from w)
    as (r & w' & Hrun & _ & _ & Hdisp & _).
  now rewrite Hrun.
Qed.

(** C1, on the code: two JOB_FAILURE alerts arrive 10 ms apart under a
    debounce window of five minutes and a transport that delivers.  The
    code renders and sends each alert by itself at its own arrival time,
    0 and 10, both long before the window closes; nothing is buffered
    and no send carries both alerts. *)
Theorem sendAlert_ignores_debounce_window :
  let env := Scenario.envOf (fun _ => Scenario.delivered "m-1") in
  let this := AlertManager.constructor Scenario.documented in
  let first := Scenario.jobFailure 0 "first" in
  let second := Scenario.jobFailure 10 "second" in
  let w0 := Scenario.boot 0 (Some this) in
  let w1 := exec (AlertManager.sendAlert env this first None) w0 in
  let w2 := exec (AlertManager.sendAlert env this second None) (at_time 10 w1) in
  AlertManager.debounceWindow this = 300000
  /\ eval (AlertManager.sendAlert env this first None) w0
     = Returned (Ok (mkEmailSent "m-1" 0))
  /\ eval (AlertManager.sendAlert env this second None) (at_time 10 w1)
     = Returned (Ok (mkEmailSent "m-1" 10))
  /\ rendered_of (trace w2) = [[first]; [second]]
  /\ fst <$> sends_of (trace w2) = [0; 10]
  /\ dispatched_of (trace w2) = [(0, [first]); (10, [second])]
  /\ Forall (fun t => t < 0 + AlertManager.debounceWindow this)
            (fst <$> sends_of (trace w2)).
Proof.
  intros env this first second w0 w1 w2.
  assert (fst <$> sends_of (trace w2) = [0; 10]) as Hsends
    by (vm_compute; reflexivity).
  split; [reflexivity |].
  split; [vm_compute; reflexivity |].
  split; [vm_compute; reflexivity |].
  split; [vm_compute; reflexivity |].
  split; [exact Hsends |].
  split; [vm_compute; reflexivity |].
  rewrite Hsends.
  change (AlertManager.debounceWindow this) with 300000.
  repeat (constructor; [lia |]). constructor.
Qed.

(* ===================================================================== *)
(** ** The failure detector *)
(* ===================================================================== *)

Section Detector.

Context (env : Env).

Let threshold := failuresInWindow (ALERT_THRESHOLDS env).

Lemma getFailureCount_run (workerName : string) (w : World) :
  FailureDetector.getFailureCount env workerName w
  = (Returned (length (FailureDetector.recentSince
                         (clock w - FailureDetector.timeWindowMs env)
                         (stored w workerName))), w).
Proof. reflexivity. Qed.

(** The write of [failures.push(now)] is overwritten by the [set] that
    follows it. *)
Lemma push_then_set (workerName : string) (history : gmap string (list Z))
      (pushed recent : list Z) :
  <[workerName := recent]>
    (match history !! workerName with
     | Some _ => <[workerName := pushed]> history
     | None => history
     end)
  = <[workerName := recent]> history.
Proof.
  destruct (history !! workerName); [apply insert_insert_eq | reflexivity].
Qed.

(** Below the threshold: the trimmed window is stored, nothing else
    happens. *)
Lemma trackJobFailure_below (jobId workerName error : string) (w : World) :
  Z.of_nat (length (windowAfter env w workerName)) < threshold ->
  FailureDetector.trackJobFailure env jobId workerName error w
  = (Returned tt,
     set_failureHistory
       (<[workerName := windowAfter env w workerName]> (failureHistory w)) w).
Proof.
  intros Hbelow.
  unfold FailureDetector.trackJobFailure, bind, date_now, gets, modify. simpl.
  rewrite push_then_set.
  fold (stored w workerName). fold (windowAfter env w workerName).
  fold threshold.
  replace (threshold <=? Z.of_nat (length (windowAfter env w workerName)))
    with false by (symmetry; apply Z.leb_gt; exact Hbelow).
  reflexivity.
Qed.

(** At the threshold with no manager: [getInstance] throws after the
    trimmed window has been stored. *)
Lemma trackJobFailure_uninitialized (jobId workerName error : string)
      (w : World) :
  threshold <= Z.of_nat (length (windowAfter env w workerName)) ->
  instance w = None ->
  FailureDetector.trackJobFailure env jobId workerName error w
  = (Thrown "AlertManager not initialized. Call AlertManager.initialize(config) first.",
     set_failureHistory
       (<[workerName := windowAfter env w workerName]> (failureHistory w)) w).
Proof.
  intros Hreach Hnone.
  unfold FailureDetector.trackJobFailure, bind, date_now, gets, modify. simpl.
  rewrite push_then_set.
  fold (stored w workerName). fold (windowAfter env w workerName).
  fold threshold.
  replace (threshold <=? Z.of_nat (length (windowAfter env w workerName)))
    with true by (symmetry; apply Z.leb_le; exact Hreach).
  unfold AlertManager.getInstance, bind, gets. simpl. now rewrite Hnone.
Qed.

(** At the threshold with a manager: the alert goes through [sendAlert],
    whatever its result, and the worker's history is set to [[]]. *)
Lemma trackJobFailure_at_threshold (jobId workerName error : string)
      (manager : AlertManager) (w : World) :
  threshold <= Z.of_nat (length (windowAfter env w workerName)) ->
  instance w = Some manager ->
  exists (r : SendResult) (w1 : World),
    AlertManager.sendAlert env manager
      (FailureDetector.repeatedFailuresAlert env jobId workerName error
         (clock w) (length (windowAfter env w workerName)))
      None
      (set_failureHistory
         (<[workerName := windowAfter env w workerName]> (failureHistory w)) w)
    = (Returned r, w1)
    /\ FailureDetector.trackJobFailure env jobId workerName error w
       = (Returned tt,
          set_failureHistory (<[workerName := []]> (failureHistory w)) w1)
    /\ instance w1 = instance w
    /\ dispatched_of (trace w1)
       = (dispatched_of (trace w)
          ++ [(clock w,
               [FailureDetector.repeatedFailuresAlert env jobId workerName error
                  (clock w) (length (windowAfter env w workerName))])])%list
    /\ clock w <= clock w1.
Proof.
  intros Hreach Hmgr.
  set (alert := FailureDetector.repeatedFailuresAlert env jobId workerName error
                  (clock w) (length (windowAfter env w workerName))).
  set (w0 := set_failureHistory
               (<[workerName := windowAfter env w workerName]> (failureHistory w))
               w).
  destruct (sendAlerts_frame env manager [alert] (alert_type alert)
              (alert_severity alert) None w0)
    as (r & w1 & Hsend & Hinst & Hhist & Hdisp & Hclock).
  exists r, w1. rewrite sendAlert_is_sendAlerts.
  split; [exact Hsend |].
  split; [| now repeat split].
  unfold FailureDetector.trackJobFailure, bind, date_now, gets, modify. simpl.
  rewrite push_then_set.
  fold (stored w workerName). fold (windowAfter env w workerName).
  fold threshold.
  replace (threshold <=? Z.of_nat (length (windowAfter env w workerName)))
    with true by (symmetry; apply Z.leb_le; exact Hreach).
  unfold AlertManager.getInstance, bind, gets. simpl. rewrite Hmgr. simpl.
  change (AlertManager.sendAlert env manager _ None _)
    with (AlertManager.sendAlerts env manager [alert] (alert_type alert)
            (alert_severity alert) None w0).
  rewrite Hsend, Hhist. simpl. now rewrite insert_insert_eq.
Qed.

End Detector.

Lemma recentSince_length_le (cutoff : Z) (timestamps : list Z) :
  (length (FailureDetector.recentSince cutoff timestamps) <= length timestamps)%nat.
Proof. unfold FailureDetector.recentSince. apply length_filter. Qed.

Lemma stored_after_set (workerName : string) (timestamps : list Z)
      (history : gmap string (list Z)) (w : World) :
  stored (set_failureHistory (<[workerName := timestamps]> history) w) workerName
  = timestamps.
Proof. unfold stored. simpl. now rewrite lookup_insert_eq. Qed.

(** C6: when the failure recorded now brings the trailing-window count
    of a worker to the threshold, and a manager is initialized,
    [trackJobFailure] hands exactly one alert to the dispatcher, of type
    REPEATED_FAILURES and severity HIGH, carrying the count, the window
    size, the job and the triggering error; it then sets the worker's
    history to the empty list, so that the failure count read at any
    time afterwards is 0. *)
Theorem trackJobFailure_escalates_once
        (env : Env) (jobId workerName error : string)
        (manager : AlertManager) (w : World) :
  instance w = Some manager ->
  failuresInWindow (ALERT_THRESHOLDS env)
  <= Z.of_nat (length (windowAfter env w workerName)) ->
  let count := length (windowAfter env w workerName) in
  let alert := FailureDetector.repeatedFailuresAlert env jobId workerName error
                 (clock w) count in
  exists w' : World,
    FailureDetector.trackJobFailure env jobId workerName error w
    = (Returned tt, w')
    /\ drop (length (dispatched_of (trace w))) (dispatched_of (trace w'))
       = [(clock w, [alert])]
    /\ alert_type alert = REPEATED_FAILURES
    /\ alert_severity alert = HIGH
    /\ alert_context alert
       = [("failureCount", CNum (Z.of_nat count));
          ("timeWindowMinutes", CNum (timeWindowMinutes (ALERT_THRESHOLDS env)));
          ("jobId", CStr jobId);
          ("error", CStr error)]
    /\ failureHistory w' !! workerName = Some []
    /\ (forall t : Z,
          FailureDetector.getFailureCount env workerName (at_time t w')
          = (Returned O, at_time t w')).
Proof.
  intros Hmgr Hreach count alert.
  destruct (trackJobFailure_at_threshold env jobId workerName error manager w
              Hreach Hmgr)
    as (r & w1 & _ & Hrun & _ & Hdisp & _).
  eexists. split; [exact Hrun |]. simpl.
  split; [rewrite Hdisp; apply drop_app_length |].
  repeat split.
  - apply lookup_insert_eq.
  - intros t. rewrite getFailureCount_run. unfold stored. simpl.
    now rewrite lookup_insert_eq.
Qed.

Lemma trackJobFailure_escalates_once_witness :
  let env := Scenario.envOf (fun _ => Scenario.delivered "m-1") in
  let manager := AlertManager.constructor Scenario.documented in
  let w := Scenario.fourFailures (Some manager) in
  exists w' : World,
    FailureDetector.trackJobFailure env "job-5" "worker-A" "OpenAI API timeout" w
    = (Returned tt, w')
    /\ drop (length (dispatched_of (trace w))) (dispatched_of (trace w'))
       = [(4000,
           [FailureDetector.repeatedFailuresAlert env "job-5" "worker-A"
              "OpenAI API timeout" 4000 5])]
    /\ failureHistory w' !! "worker-A" = Some []
    /\ FailureDetector.getFailureCount env "worker-A" (at_time 4000 w')
       = (Returned O, at_time 4000 w').
Proof.
  intros env manager w.
  destruct (trackJobFailure_escalates_once env "job-5" "worker-A"
              "OpenAI API timeout" manager w)
    as (w' & Hrun & Hdisp & _ & _ & _ & Hhist & Hcount);
    [reflexivity | vm_compute; discriminate |].
  exists w'. split; [exact Hrun |]. split; [exact Hdisp |].
  split; [exact Hhist | apply Hcount].
Defined.

Lemma filter_window_length (lo now : Z) (timestamps : list Z) :
  Forall (fun t => t <= now) timestamps ->
  length (filter (fun t => lo <= t) timestamps)
  = length (filter (fun t => lo <= t /\ t <= now) timestamps).
Proof.
  induction 1 as [| t timestamps Ht _ IH]; [reflexivity |].
  rewrite !filter_cons.
  destruct (decide (lo <= t)) as [Hlo | Hlo].
  - rewrite decide_True by (split; assumption). simpl. now rewrite IH.
  - rewrite decide_False by tauto. exact IH.
Qed.

(** C7: if no stored timestamp of the worker lies ahead of the clock,
    [getFailureCount] returns the number of stored timestamps [t] with
    [now - timeWindow <= t <= now], the lower bound included, and leaves
    the world, the stored history with it, as it was. *)
Theorem getFailureCount_counts_window
        (env : Env) (workerName : string) (w : World) :
  Forall (fun t => t <= clock w) (stored w workerName) ->
  FailureDetector.getFailureCount env workerName w
  = (Returned (countInWindow env (clock w) (stored w workerName)), w).
Proof.
  intros Hbehind. rewrite getFailureCount_run.
  unfold countInWindow, FailureDetector.recentSince.
  now rewrite (filter_window_length _ (clock w)) by exact Hbehind.
Qed.

Lemma getFailureCount_counts_window_witness :
  let env := Scenario.envOf (fun _ => Scenario.delivered "m-1") in
  let w := at_time 601000 (Scenario.fourFailures None) in
  FailureDetector.getFailureCount env "worker-A" w
  = (Returned (countInWindow env 601000 [0; 1000; 2000; 3000]), w)
  /\ countInWindow env 601000 [0; 1000; 2000; 3000] = 3%nat.
Proof.
  intros env w. split; [| reflexivity].
  apply (getFailureCount_counts_window env "worker-A" w).
  change (Forall (fun t => t <= 601000) [0; 1000; 2000; 3000]).
  repeat (constructor; [lia |]). constructor.
Defined.

(** The boundary of the window: a timestamp exactly [timeWindow] old is
    still counted, one a millisecond older is not. *)
Example getFailureCount_boundary :
  let env := Scenario.envOf (fun _ => Scenario.delivered "m-1") in
  eval (FailureDetector.getFailureCount env "worker-A")
       (at_time 600000 (Scenario.fourFailures None)) = Returned 4%nat
  /\ eval (FailureDetector.getFailureCount env "worker-A")
          (at_time 600001 (Scenario.fourFailures None)) = Returned 3%nat.
Proof. split; reflexivity. Qed.

(** C9, as the code has it: with a threshold of at least one, every
    [trackJobFailure] call that completes leaves fewer stored
    timestamps for the worker than the threshold, hence fewer within
    the trailing window of any later reading: either the trimmed window
    was below the threshold, or the history was set to [[]] after the
    alert. *)
Theorem trackJobFailure_keeps_count_below_threshold
        (env : Env) (jobId workerName error : string) (w w' : World) :
  0 < failuresInWindow (ALERT_THRESHOLDS env) ->
  FailureDetector.trackJobFailure env jobId workerName error w
  = (Returned tt, w') ->
  Z.of_nat (length (stored w' workerName))
  < failuresInWindow (ALERT_THRESHOLDS env)
  /\ (stored w' workerName = windowAfter env w workerName
      \/ stored w' workerName = [])
  /\ (forall t : Z,
        exists n : nat,
          FailureDetector.getFailureCount env workerName (at_time t w')
          = (Returned n, at_time t w')
          /\ Z.of_nat n < failuresInWindow (ALERT_THRESHOLDS env)).
Proof.
  intros Hpos Hrun.
  assert (Z.of_nat (length (stored w' workerName))
          < failuresInWindow (ALERT_THRESHOLDS env)
          /\ (stored w' workerName = windowAfter env w workerName
              \/ stored w' workerName = [])) as [Hlen Hcases].
  { destruct (Z_lt_le_dec (Z.of_nat (length (windowAfter env w workerName)))
                (failuresInWindow (ALERT_THRESHOLDS env))) as [Hbelow | Hreach].
    - rewrite (trackJobFailure_below env jobId workerName error w Hbelow) in Hrun.
      injection Hrun as <-. rewrite stored_after_set. split; [exact Hbelow | now left].
    - destruct (instance w) as [manager |] eqn:Hmgr.
      + destruct (trackJobFailure_at_threshold env jobId workerName error manager w
                    Hreach Hmgr) as (r & w1 & _ & Hrun' & _).
        rewrite Hrun' in Hrun. injection Hrun as <-.
        rewrite stored_after_set. simpl. split; [lia | now right].
      + rewrite (trackJobFailure_uninitialized env jobId workerName error w
                   Hreach Hmgr) in Hrun.
        discriminate. }
  split; [exact Hlen |]. split; [exact Hcases |].
  intros t. rewrite getFailureCount_run. eexists. split; [reflexivity |].
  change (stored (at_time t w') workerName) with (stored w' workerName).
  pose proof (recentSince_length_le
                (clock (at_time t w') - FailureDetector.timeWindowMs env)
                (stored w' workerName)).
  lia.
Qed.

Lemma trackJobFailure_keeps_count_below_threshold_witness :
  let env := Scenario.envOf (fun _ => Scenario.delivered "m-1") in
  let manager := AlertManager.constructor Scenario.documented in
  let track := FailureDetector.trackJobFailure env "job" "worker-A" "boom" in
  let fifth := exec track (Scenario.fourFailures (Some manager)) in
  let fourth := exec track
                  (at_time 3000
                     (Scenario.failuresAt env [0; 1000; 2000]
                        (Scenario.boot 0 (Some manager)))) in
  (stored fifth "worker-A" = []
   /\ Z.of_nat (length (stored fifth "worker-A")) < 5)
  /\ (length (stored fourth "worker-A") = 4%nat
      /\ Z.of_nat (length (stored fourth "worker-A")) < 5).
Proof.
  intros env manager track fifth fourth.
  split.
  - split; [reflexivity |].
    apply (trackJobFailure_keeps_count_below_threshold env "job" "worker-A"
             "boom" (Scenario.fourFailures (Some manager)) fifth).
    + vm_compute. reflexivity.
    + vm_compute. reflexivity.
  - split; [reflexivity |].
    apply (trackJobFailure_keeps_count_below_threshold env "job" "worker-A"
             "boom"
             (at_time 3000
                (Scenario.failuresAt env [0; 1000; 2000]
                   (Scenario.boot 0 (Some manager))))
             fourth).
    + vm_compute. reflexivity.
    + vm_compute. reflexivity.
Defined.

(** C9 as worded, for every configuration, fails when the threshold is
    0: with a manager initialized, the call escalates, completes and
    leaves the history empty, and the count 0 it leaves is not strictly
    below the threshold 0. *)
Lemma count_below_threshold_counterexample :
  let env := Scenario.envWithThresholds 0 10 in
  let manager := AlertManager.constructor Scenario.documented in
  let w := Scenario.boot 0 (Some manager) in
  let w' := exec (FailureDetector.trackJobFailure env "job-1" "worker-A" "boom")
                 w in
  FailureDetector.trackJobFailure env "job-1" "worker-A" "boom" w
  = (Returned tt, w')
  /\ stored w' "worker-A" = []
  /\ eval (FailureDetector.getFailureCount env "worker-A") w' = Returned O
  /\ ~ (Z.of_nat (length (stored w' "worker-A"))
        < failuresInWindow (ALERT_THRESHOLDS env)).
Proof.
  intros env manager w w'.
  split; [vm_compute; reflexivity |].
  split; [vm_compute; reflexivity |].
  split; [vm_compute; reflexivity |].
  vm_compute. discriminate.
Qed.

(** Below the threshold nothing reaches the dispatcher. *)
Lemma trackJobFailure_below_is_silent
      (env : Env) (jobId workerName error : string) (w : World) :
  Z.of_nat (length (windowAfter env w workerName))
  < failuresInWindow (ALERT_THRESHOLDS env) ->
  trace (exec (FailureDetector.trackJobFailure env jobId workerName error) w)
  = trace w.
Proof.
  intros Hbelow. unfold exec. now rewrite trackJobFailure_below.
Qed.

(** X23: if no stored timestamp lies ahead of the clock, none does
    after [trackJobFailure], however the call ends: the new timestamp is
    the clock's, and the clock only moves forward during the call. *)
Lemma trackJobFailure_history_behind_clock
      (env : Env) (jobId workerName error : string) (w : World) :
  historyBehindClock w ->
  historyBehindClock
    (exec (FailureDetector.trackJobFailure env jobId workerName error) w).
Proof.
  intros Hinv.
  assert (Forall (fun t => t <= clock w) (windowAfter env w workerName))
    as Hwindow.
  { unfold windowAfter, FailureDetector.recentSince.
    apply Forall_forall. intros t Ht.
    apply list_elem_of_filter in Ht as [_ Ht].
    apply elem_of_app in Ht as [Ht | Ht].
    - unfold stored in Ht.
      destruct (failureHistory w !! workerName) as [ts |] eqn:E; simpl in Ht.
      + specialize (Hinv workerName ts E).
        rewrite Forall_forall in Hinv. now apply Hinv.
      + inversion Ht.
    - apply list_elem_of_singleton in Ht. lia. }
  assert (forall (w1 : World) (ts : list Z),
             clock w <= clock w1 ->
             Forall (fun t => t <= clock w) ts ->
             historyBehindClock
               (set_failureHistory (<[workerName := ts]> (failureHistory w)) w1))
    as Hset.
  { intros w1 ts Hclock Hts other ts' Hlookup. simpl in *.
    destruct (decide (workerName = other)) as [<- | Hne].
    - rewrite lookup_insert_eq in Hlookup. injection Hlookup as <-.
      eapply Forall_impl; [exact Hts |]. simpl. intros; lia.
    - rewrite lookup_insert_ne in Hlookup by exact Hne.
      eapply Forall_impl; [exact (Hinv other ts' Hlookup) |]. simpl. intros; lia. }
  unfold exec.
  destruct (Z_lt_le_dec (Z.of_nat (length (windowAfter env w workerName)))
              (failuresInWindow (ALERT_THRESHOLDS env))) as [Hbelow | Hreach].
  - rewrite trackJobFailure_below by exact Hbelow. simpl.
    apply Hset; [lia | exact Hwindow].
  - destruct (instance w) as [manager |] eqn:Hmgr.
    + destruct (trackJobFailure_at_threshold env jobId workerName error manager w
                  Hreach Hmgr) as (r & w1 & _ & Hrun & _ & _ & Hclock).
      rewrite Hrun. simpl. apply Hset; [exact Hclock | constructor].
    + rewrite trackJobFailure_uninitialized by assumption. simpl.
      apply Hset; [lia | exact Hwindow].
Qed.

(* ===================================================================== *)
(** ** A burst of failures *)
(* ===================================================================== *)

Section Burst.

Context (env : Env) (jobId workerName error : string).

Let threshold := failuresInWindow (ALERT_THRESHOLDS env).
Let window := FailureDetector.timeWindowMs env.

Lemma reportFailures_app (times1 times2 : list Z) (w : World) :
  reportFailures env jobId workerName error (times1 ++ times2) w
  = reportFailures env jobId workerName error times2
      (reportFailures env jobId workerName error times1 w).
Proof.
  revert w. induction times1 as [| t times1 IH]; intros w; [reflexivity |].
  simpl. apply IH.
Qed.

(** Nothing is trimmed from timestamps that all lie within one window
    length of each other. *)
Lemma windowAfter_keeps_all (lo : Z) (w : World) :
  Forall (fun t => lo <= t) (stored w workerName) ->
  lo <= clock w <= lo + window ->
  windowAfter env w workerName = (stored w workerName ++ [clock w])%list.
Proof.
  intros Hseen Hnow. unfold windowAfter, FailureDetector.recentSince.
  fold window.
  rewrite filter_app, filter_cons, filter_nil.
  rewrite decide_True by lia. f_equal.
  induction Hseen as [| t ts Ht _ IH]; [reflexivity |].
  rewrite filter_cons, decide_True by lia. now rewrite IH.
Qed.

(** While the count stays below the threshold, reports within one
    window only accumulate: nothing is dispatched. *)
Lemma reportFailures_quiet (lo : Z) (times : list Z) :
  forall w : World,
    Forall (fun t => lo <= t) (stored w workerName) ->
    Forall (fun t => lo <= t <= lo + window) times ->
    Z.of_nat (length (stored w workerName) + length times) < threshold ->
    let w' := reportFailures env jobId workerName error times w in
    stored w' workerName = (stored w workerName ++ times)%list
    /\ trace w' = trace w
    /\ instance w' = instance w
    /\ mailerCalls w' = mailerCalls w.
Proof.
  induction times as [| t times IH]; intros w Hseen Htimes Hcount; simpl.
  - now rewrite app_nil_r.
  - inversion Htimes as [| ? ? Ht Htimes']; subst.
    assert (windowAfter env (at_time t w) workerName
            = (stored w workerName ++ [t])%list) as Hwin
      by (apply (windowAfter_keeps_all lo); [exact Hseen | exact Ht]).
    assert (Z.of_nat (length (windowAfter env (at_time t w) workerName))
            < threshold) as Hbelow.
    { rewrite Hwin, length_app. simpl in *. lia. }
    assert (exec (FailureDetector.trackJobFailure env jobId workerName error)
                 (at_time t w)
            = set_failureHistory
                (<[workerName := (stored w workerName ++ [t])%list]>
                   (failureHistory w))
                (at_time t w)) as Hstep.
    { unfold exec.
      rewrite (trackJobFailure_below env jobId workerName error (at_time t w))
        by exact Hbelow.
      simpl. now rewrite Hwin. }
    rewrite Hstep.
    set (w1 := set_failureHistory _ (at_time t w)).
    assert (stored w1 workerName = (stored w workerName ++ [t])%list) as Hstored
      by apply stored_after_set.
    destruct (IH w1) as (Hs & Htr & Hinst & Hcalls).
    + rewrite Hstored. apply Forall_app. split; [exact Hseen |].
      constructor; [lia | constructor].
    + exact Htimes'.
    + rewrite Hstored, length_app. simpl in *. lia.
    + rewrite Hs, Hstored, <- app_assoc. now repeat split.
Qed.

(** X22: a burst of failures.  From an empty history of the worker and
    with a manager initialized, [failuresInWindow] reports whose times
    all lie within one window length dispatch exactly one batch, at the
    last of them, holding the one REPEATED_FAILURES alert with the
    count; the earlier reports dispatch nothing, and the count is 0
    afterwards. *)
Lemma reportFailures_burst_escalates_once
      (manager : AlertManager) (lo : Z) (times : list Z) (last : Z) (w : World) :
  instance w = Some manager ->
  stored w workerName = [] ->
  Forall (fun t => lo <= t <= lo + window) (times ++ [last]) ->
  Z.of_nat (length (times ++ [last])) = threshold ->
  let w' := reportFailures env jobId workerName error (times ++ [last]) w in
  drop (length (dispatched_of (trace w))) (dispatched_of (trace w'))
  = [(last,
      [FailureDetector.repeatedFailuresAlert env jobId workerName error last
         (length (times ++ [last]))])]
  /\ stored w' workerName = []
  /\ forall t : Z,
       eval (FailureDetector.getFailureCount env workerName) (at_time t w')
       = Returned O.
Proof.
  intros Hmgr Hempty Hall Hcount.
  apply Forall_app in Hall as [Htimes Hlast].
  inversion Hlast as [| ? ? Hlast' _]; subst.
  rewrite length_app in Hcount. simpl in Hcount.
  destruct (reportFailures_quiet lo times w) as (Hs & Htr & Hinst & _).
  { rewrite Hempty. constructor. }
  { exact Htimes. }
  { rewrite Hempty. simpl. lia. }
  rewrite reportFailures_app. simpl.
  set (w1 := reportFailures env jobId workerName error times w) in *.
  rewrite Hempty in Hs. simpl in Hs.
  assert (windowAfter env (at_time last w1) workerName = (times ++ [last])%list)
    as Hwin.
  { rewrite (windowAfter_keeps_all lo).
    - change (stored (at_time last w1) workerName) with (stored w1 workerName).
      now rewrite Hs.
    - change (stored (at_time last w1) workerName) with (stored w1 workerName).
      rewrite Hs. eapply Forall_impl; [exact Htimes |]. simpl. intros; lia.
    - exact Hlast'. }
  destruct (trackJobFailure_at_threshold env jobId workerName error manager
              (at_time last w1)) as (r & w2 & _ & Hrun & _ & Hdisp & _).
  { rewrite Hwin, length_app. simpl. fold threshold. lia. }
  { simpl. now rewrite Hinst. }
  unfold exec. rewrite Hrun. simpl.
  rewrite Hwin in Hdisp. simpl in Hdisp. rewrite Htr in Hdisp.
  split; [rewrite Hdisp; apply drop_app_length |].
  split; [apply stored_after_set |].
  intros t. unfold eval. rewrite getFailureCount_run. simpl.
  change (stored (at_time t (set_failureHistory
                               (<[workerName := []]> (failureHistory w1)) w2))
                 workerName)
    with (stored (set_failureHistory
                    (<[workerName := []]> (failureHistory w1)) w2) workerName).
  now rewrite stored_after_set.
Qed.

End Burst.

(** The scenario of the spec: threshold 5, window 10 minutes, five
    failures of worker-A within one minute.  One batch reaches the
    dispatcher, at the fifth failure, holding the one REPEATED_FAILURES
    alert of severity HIGH, and the count read right afterwards is 0. *)
Example five_failures_escalate_once :
  let env := Scenario.envOf (fun _ => Scenario.delivered "m-1") in
  let manager := AlertManager.constructor Scenario.documented in
  let w := Scenario.failuresAt env [0; 10000; 20000; 30000; 40000]
             (Scenario.boot 0 (Some manager)) in
  let before := Scenario.failuresAt env [0; 10000; 20000; 30000]
                  (Scenario.boot 0 (Some manager)) in
  dispatched_of (trace before) = []
  /\ eval (FailureDetector.getFailureCount env "worker-A") before
     = Returned 4%nat
  /\ dispatched_of (trace w)
     = [(40000,
         [FailureDetector.repeatedFailuresAlert env "job" "worker-A"
            "OpenAI API timeout" 40000 5])]
  /\ length (sends_of (trace w)) = 1%nat
  /\ eval (FailureDetector.getFailureCount env "worker-A") w = Returned O.
Proof. repeat split; vm_compute; reflexivity. Qed.

(* ===================================================================== *)
(** ** The retry loop, attempt by attempt *)
(* ===================================================================== *)

Lemma backoff_seq (this : AlertManager) (k : nat) :
  backoff this <$> seqZ 0 (Z.of_nat k) = configuredDelay this <$> seq 0 k.
Proof.
  induction k as [| k IH]; [reflexivity |].
  rewrite seqZ_S, seq_S, !fmap_app, IH. simpl.
  now rewrite Z.add_0_l, backoff_configuredDelay.
Qed.

Section RetryAccounting.

Context (env : Env) (this : AlertManager).
Context (subject html : string) (alertType : AlertType) (fromEmail : string).

Let max := maxAttempts (retryConfig this).
Let mail := alertMail this subject html fromEmail.
Let body := AlertManager.sendAttempt env this subject html alertType fromEmail.
Let after : M SendResult := ret (Err (fallbackFailure this alertType)).

(** Whatever the transport does, a run over any list of indices
    returns, and each index it reaches costs one send of the same
    message. *)
Lemma for_each_accounting (indices : list Z) :
  forall w : World,
    exists (r : SendResult) (w' : World) (pauses : list Z) (n : nat),
      for_each indices body after w = (Returned r, w')
      /\ mailerCalls w' = (mailerCalls w + n)%nat
      /\ (n <= length indices)%nat
      /\ snd <$> sends_of (trace w')
         = ((snd <$> sends_of (trace w)) ++ replicate n mail)%list
      /\ sleeps_of (trace w') = (sleeps_of (trace w) ++ pauses)%list.
Proof.
  induction indices as [| a indices IH]; intros w.
  - exists (Err (fallbackFailure this alertType)), w, [], O. simpl.
    rewrite !app_nil_r. repeat split; try reflexivity; lia.
  - assert (forall r,
              exists (r0 : SendResult) (w' : World) (pauses : list Z) (n : nat),
                (Returned r, sent mail w) = (Returned r0, w')
                /\ mailerCalls w' = (mailerCalls w + n)%nat
                /\ (n <= length (a :: indices))%nat
                /\ snd <$> sends_of (trace w')
                   = ((snd <$> sends_of (trace w)) ++ replicate n mail)%list
                /\ sleeps_of (trace w') = (sleeps_of (trace w) ++ pauses)%list)
      as Hbreak.
    { intros r. exists r, (sent mail w), [], 1%nat. simpl.
      rewrite sends_of_app, sleeps_of_app, fmap_app. simpl.
      rewrite !app_nil_r. repeat split; try reflexivity; lia. }
    assert (exists (r0 : SendResult) (w' : World) (pauses : list Z) (n : nat),
              for_each indices body after (slept (backoff this a) (sent mail w))
              = (Returned r0, w')
              /\ mailerCalls w' = (mailerCalls w + n)%nat
              /\ (n <= length (a :: indices))%nat
              /\ snd <$> sends_of (trace w')
                 = ((snd <$> sends_of (trace w)) ++ replicate n mail)%list
              /\ sleeps_of (trace w') = (sleeps_of (trace w) ++ pauses)%list)
      as Hcontinue.
    { destruct (IH (slept (backoff this a) (sent mail w)))
        as (r0 & w' & pauses & n & Hrun & Hcalls & Hn & Hsends & Hsleeps).
      exists r0, w', (backoff this a :: pauses), (S n).
      split; [exact Hrun |].
      simpl in Hcalls, Hsends, Hsleeps.
      rewrite !sends_of_app, !fmap_app in Hsends.
      rewrite !sleeps_of_app in Hsleeps. simpl in Hsends, Hsleeps.
      rewrite app_nil_r in Hsends, Hsleeps.
      repeat split.
      - lia.
      - simpl. lia.
      - rewrite Hsends, <- app_assoc. reflexivity.
      - rewrite Hsleeps, <- app_assoc. reflexivity. }
    simpl. unfold bind. subst body. rewrite sendAttempt_cases. fold mail.
    destruct (smtp env (mailerCalls w)) as [r | reason].
    + destruct (res_error r) as [error |].
      * destruct (negb (AlertManager.isTransientError error)
                  || (a =? maxAttempts (retryConfig this) - 1));
          [apply Hbreak | exact Hcontinue].
      * destruct (res_data r) as [data |]; [| apply Hbreak].
        destruct (JsString.truthy (data_id data)); apply Hbreak.
    + destruct (a <? maxAttempts (retryConfig this) - 1);
        [exact Hcontinue | apply Hbreak].
Qed.

Lemma retried_facts (k : nat) :
  forall (a : Z) (w : World),
    mailerCalls (retried this mail a k w) = (mailerCalls w + k)%nat
    /\ instance (retried this mail a k w) = instance w
    /\ failureHistory (retried this mail a k w) = failureHistory w
    /\ sleeps_of (trace (retried this mail a k w))
       = (sleeps_of (trace w) ++ (backoff this <$> seqZ a (Z.of_nat k)))%list.
Proof.
  induction k as [| k IH]; intros a w.
  - simpl. rewrite app_nil_r.
    repeat split; try reflexivity; lia.
  - simpl retried.
    destruct (IH (a + 1) (slept (backoff this a) (sent mail w)))
      as (Hcalls & Hinst & Hhist & Hsleeps).
    rewrite (seqZ_cons a (Z.of_nat (S k))) by lia.
    replace (Z.succ a) with (a + 1) by lia.
    replace (Z.pred (Z.of_nat (S k))) with (Z.of_nat k) by lia.
    rewrite fmap_cons.
    set (rest := backoff this <$> seqZ (a + 1) (Z.of_nat k)) in *.
    rewrite Hcalls, Hinst, Hhist, Hsleeps. simpl.
    rewrite !sleeps_of_app. simpl. rewrite app_nil_r, <- app_assoc.
    repeat split; try reflexivity; lia.
Qed.

(** [k] retryable failures in a row, with at least one attempt left
    after them, bring the loop to index [a + k] in the world
    [retried ... k]. *)
Lemma retry_prefix (k : nat) :
  forall (a : Z) (n : nat) (w : World),
    a + Z.of_nat (k + S n) = max ->
    (forall i : nat, (i < k)%nat ->
                     retryableReply (smtp env (mailerCalls w + i))) ->
    for_each (seqZ a (Z.of_nat (k + S n))) body after w
    = for_each (seqZ (a + Z.of_nat k) (Z.of_nat (S n))) body after
        (retried this mail a k w).
Proof.
  induction k as [| k IH]; intros a n w Hbound Hretry.
  - simpl. now rewrite Z.add_0_r.
  - change (S k + S n)%nat with (S (k + S n)).
    rewrite for_each_seqZ_succ. subst body.
    rewrite sendAttempt_cases. fold max mail.
    assert (for_each (seqZ (a + 1) (Z.of_nat (k + S n)))
              (AlertManager.sendAttempt env this subject html alertType fromEmail)
              after (slept (backoff this a) (sent mail w))
            = for_each (seqZ (a + Z.of_nat (S k)) (Z.of_nat (S n)))
                (AlertManager.sendAttempt env this subject html alertType
                   fromEmail)
                after (retried this mail a (S k) w)) as Hnext.
    { rewrite IH.
      - simpl retried. do 2 f_equal. lia.
      - lia.
      - intros i Hi. simpl.
        replace (S (mailerCalls w + i))%nat with (mailerCalls w + S i)%nat
          by lia.
        apply Hretry. lia. }
    destruct (Hretry O ltac:(lia)) as [(r & error & Hr & He & Ht) | [reason Hr]];
      rewrite Nat.add_0_r in Hr; rewrite Hr.
    + rewrite He, Ht. simpl.
      replace (a =? max - 1) with false by (symmetry; apply Z.eqb_neq; lia).
      exact Hnext.
    + replace (a <? max - 1) with true by (symmetry; apply Z.ltb_lt; lia).
      exact Hnext.
Qed.

(** The attempt at index [k], reached after [k] retryable failures. *)
Lemma sendWithRetry_at_attempt (k : nat) (w : World) :
  Z.of_nat k < max ->
  (forall i : nat, (i < k)%nat ->
                   retryableReply (smtp env (mailerCalls w + i))) ->
  AlertManager.sendWithRetry env this subject html alertType fromEmail w
  = match body (Z.of_nat k) (retried this mail 0 k w) with
    | (Returned (Break r), w1) => (Returned r, w1)
    | (Returned Continue, w1) =>
        for_each (seqZ (Z.of_nat k + 1) (max - Z.of_nat k - 1)) body after w1
    | (Thrown reason, w1) => (Thrown reason, w1)
    end.
Proof.
  intros Hk Hretry. unfold AlertManager.sendWithRetry. fold max body after.
  replace max with (Z.of_nat (k + S (Z.to_nat (max - Z.of_nat k - 1)))) at 1
    by lia.
  rewrite retry_prefix by (assumption || lia).
  rewrite for_each_seqZ_succ, Z.add_0_l.
  replace (Z.of_nat (Z.to_nat (max - Z.of_nat k - 1)))
    with (max - Z.of_nat k - 1) by lia.
  reflexivity.
Qed.

End RetryAccounting.

Section RetryOutcomes.

Context (env : Env) (this : AlertManager).
Context (subject html : string) (alertType : AlertType) (fromEmail : string).

Let max := maxAttempts (retryConfig this).
Let mail := alertMail this subject html fromEmail.

(** The world in which the attempt at index [k] ends the loop. *)
Lemma stopped_at_facts (k : nat) (w : World) :
  let w' := sent mail (retried this mail 0 k w) in
  mailerCalls w' = (mailerCalls w + S k)%nat
  /\ drop (length (sleeps_of (trace w))) (sleeps_of (trace w'))
     = configuredDelay this <$> seq 0 k.
Proof.
  destruct (retried_facts this subject html fromEmail k 0 w)
    as (Hcalls & _ & _ & Hsleeps).
  fold mail in Hcalls, Hsleeps. rewrite backoff_seq in Hsleeps.
  simpl. rewrite sleeps_of_app, Hsleeps, Hcalls. simpl.
  rewrite app_nil_r, drop_app_length. split; [lia | reflexivity].
Qed.

End RetryOutcomes.

(** X1: whatever the transport replies, [sendWithRetry] returns a
    result and never throws; it hands the same message to the
    transport each time, and at most [maxAttempts] times. *)
Theorem sendWithRetry_sends_at_most_maxAttempts
        (env : Env) (this : AlertManager) (subject html : string)
        (alertType : AlertType) (fromEmail : string) (w : World) :
  exists (r : SendResult) (w' : World) (n : nat),
    AlertManager.sendWithRetry env this subject html alertType fromEmail w
    = (Returned r, w')
    /\ mailerCalls w' = (mailerCalls w + n)%nat
    /\ Z.of_nat n <= Z.max 0 (maxAttempts (retryConfig this))
    /\ snd <$> sends_of (trace w')
       = ((snd <$> sends_of (trace w))
          ++ replicate n (alertMail this subject html fromEmail))%list.
Proof.
  unfold AlertManager.sendWithRetry.
  destruct (for_each_accounting env this subject html alertType fromEmail
              (seqZ 0 (maxAttempts (retryConfig this))) w)
    as (r & w' & pauses & n & Hrun & Hcalls & Hn & Hsends & _).
  exists r, w', n. rewrite length_seqZ in Hn.
  repeat split; try assumption. lia.
Qed.

(** X2: [sendWithRetry] asks for a pause after every attempt except
    the one that ends the run, whatever the transport does: a run that
    called the transport [n] times has requested exactly [n - 1]
    pauses, none when [n] is 0, and they are [delays[0]], [delays[1]],
    ... in order, 1000 ms standing in where the list has no entry. *)
Theorem sendWithRetry_pauses_between_attempts
        (env : Env) (this : AlertManager) (subject html : string)
        (alertType : AlertType) (fromEmail : string) (w : World) :
  exists (r : SendResult) (w' : World) (n : nat),
    AlertManager.sendWithRetry env this subject html alertType fromEmail w
    = (Returned r, w')
    /\ mailerCalls w' = (mailerCalls w + n)%nat
    /\ drop (length (sleeps_of (trace w))) (sleeps_of (trace w'))
       = configuredDelay this <$> seq 0 (Nat.pred n).
Proof.
  destruct (Z_le_gt_dec (maxAttempts (retryConfig this)) 0) as [Hle | Hgt].
  - exists (Err (fallbackFailure this alertType)), w, O.
    unfold AlertManager.sendWithRetry. rewrite seqZ_nil by exact Hle. simpl.
    split; [reflexivity |]. split; [lia |].
    now rewrite drop_all.
  - destruct (sendWithRetry_inv env this subject html alertType fromEmail w)
      as (r & w' & s & Hrun & _ & _ & _ & _ & _ & Hsleeps & Hcalls & _).
    destruct Hcalls as [[Hle _] | [_ Hcalls]]; [lia |].
    exists r, w', (S s). split; [exact Hrun |]. split; [lia |].
    rewrite Hsleeps, drop_app_length. simpl. apply backoff_seq.
Qed.

(** X3: a terminal transport error ends the loop at once, at whatever
    attempt it occurs: after [k] retryable failures and a terminal error
    on attempt [k], the failure carries that error's message and the
    count [k + 1], the transport has been called [k + 1] times, and the
    attempts that remain are not used. *)
Theorem sendWithRetry_terminal_error_stops
        (env : Env) (this : AlertManager) (subject html : string)
        (alertType : AlertType) (fromEmail : string) (w : World)
        (k : nat) (error : MailError) :
  Z.of_nat k < maxAttempts (retryConfig this) ->
  (forall i : nat, (i < k)%nat ->
                   retryableReply (smtp env (mailerCalls w + i))) ->
  terminalReply error (smtp env (mailerCalls w + k)) ->
  exists w' : World,
    AlertManager.sendWithRetry env this subject html alertType fromEmail w
    = (Returned (Err (deliveryFailed this alertType (error_message error)
                        (Z.of_nat k + 1))), w')
    /\ mailerCalls w' = (mailerCalls w + S k)%nat
    /\ drop (length (sleeps_of (trace w))) (sleeps_of (trace w'))
       = configuredDelay this <$> seq 0 k.
Proof.
  intros Hk Hretry (r & Hr & He & Ht).
  rewrite (sendWithRetry_at_attempt env this subject html alertType fromEmail k w)
    by assumption.
  rewrite sendAttempt_cases.
  destruct (retried_facts this subject html fromEmail k 0 w) as (Hcalls & _).
  rewrite Hcalls, Hr, He, Ht. simpl.
  destruct (stopped_at_facts this subject html fromEmail k w)
    as (Hc & Hp).
  eexists. split; [reflexivity |]. now split.
Qed.

(** X4: the first attempt that succeeds wins: after [k] retryable
    failures, a reply with a message id on attempt [k] gives the
    success with that id, stamped with the time it arrived at; the
    transport has been called [k + 1] times and the run has asked for
    the pauses [delays[0]], ..., [delays[k-1]] (1000 ms where the list
    ends). *)
Theorem sendWithRetry_first_success
        (env : Env) (this : AlertManager) (subject html : string)
        (alertType : AlertType) (fromEmail : string) (w : World)
        (k : nat) (id : string) :
  Z.of_nat k < maxAttempts (retryConfig this) ->
  (forall i : nat, (i < k)%nat ->
                   retryableReply (smtp env (mailerCalls w + i))) ->
  successReply id (smtp env (mailerCalls w + k)) ->
  exists w' : World,
    AlertManager.sendWithRetry env this subject html alertType fromEmail w
    = (Returned (Ok (mkEmailSent id (clock w'))), w')
    /\ mailerCalls w' = (mailerCalls w + S k)%nat
    /\ drop (length (sleeps_of (trace w))) (sleeps_of (trace w'))
       = configuredDelay this <$> seq 0 k.
Proof.
  intros Hk Hretry (r & Hr & He & Hd & Hid).
  rewrite (sendWithRetry_at_attempt env this subject html alertType fromEmail k w)
    by assumption.
  rewrite sendAttempt_cases.
  destruct (retried_facts this subject html fromEmail k 0 w) as (Hcalls & _).
  rewrite Hcalls, Hr, He, Hd. simpl.
  destruct id as [| c id']; [congruence |]. simpl.
  destruct (stopped_at_facts this subject html fromEmail k w)
    as (Hc & Hp).
  exists (sent (alertMail this subject html fromEmail)
            (retried this (alertMail this subject html fromEmail) 0 k w)).
  split; [reflexivity |]. now repeat split.
Qed.

(** X5: a reply with neither an error nor a usable message id is not
    retried: on whatever attempt it arrives, the loop ends with
    "Invalid response from mailer" carrying the reply's data, even
    when attempts remain. *)
Theorem sendWithRetry_invalid_response_stops
        (env : Env) (this : AlertManager) (subject html : string)
        (alertType : AlertType) (fromEmail : string) (w : World)
        (k : nat) (response : option MailData) :
  Z.of_nat k < maxAttempts (retryConfig this) ->
  (forall i : nat, (i < k)%nat ->
                   retryableReply (smtp env (mailerCalls w + i))) ->
  emptyReply response (smtp env (mailerCalls w + k)) ->
  exists w' : World,
    AlertManager.sendWithRetry env this subject html alertType fromEmail w
    = (Returned (Err (invalidResponse this alertType response)), w')
    /\ mailerCalls w' = (mailerCalls w + S k)%nat.
Proof.
  intros Hk Hretry (r & Hr & He & Hd & Hempty).
  rewrite (sendWithRetry_at_attempt env this subject html alertType fromEmail k w)
    by assumption.
  rewrite sendAttempt_cases.
  destruct (retried_facts this subject html fromEmail k 0 w) as (Hcalls & _).
  rewrite Hcalls, Hr, He, Hd.
  destruct (stopped_at_facts this subject html fromEmail k w) as (Hc & _).
  destruct Hempty as [-> | ->]; simpl; eexists; (split; [reflexivity | exact Hc]).
Qed.

(** X6: a send that throws is retried like a transient error while
    attempts remain; when the last allowed attempt throws as well, the
    failure is "Failed to send alert email after retries" with the
    thrown message and the count [maxAttempts], after exactly
    [maxAttempts] sends. *)
Theorem sendWithRetry_rejected_last_attempt
        (env : Env) (this : AlertManager) (subject html : string)
        (alertType : AlertType) (fromEmail : string) (w : World)
        (k : nat) (reason : string) :
  Z.of_nat k = maxAttempts (retryConfig this) - 1 ->
  (forall i : nat, (i < k)%nat ->
                   retryableReply (smtp env (mailerCalls w + i))) ->
  smtp env (mailerCalls w + k) = Rejects reason ->
  exists w' : World,
    AlertManager.sendWithRetry env this subject html alertType fromEmail w
    = (Returned (Err (deliveryFailedAfterRetries this alertType reason
                        (maxAttempts (retryConfig this)))), w')
    /\ Z.of_nat (mailerCalls w')
       = Z.of_nat (mailerCalls w) + maxAttempts (retryConfig this)
    /\ drop (length (sleeps_of (trace w))) (sleeps_of (trace w'))
       = configuredDelay this <$> seq 0 k.
Proof.
  intros Hk Hretry Hr.
  rewrite (sendWithRetry_at_attempt env this subject html alertType fromEmail k w)
    by (assumption || lia).
  rewrite sendAttempt_cases.
  destruct (retried_facts this subject html fromEmail k 0 w) as (Hcalls & _).
  rewrite Hcalls, Hr.
  replace (Z.of_nat k <? maxAttempts (retryConfig this) - 1) with false
    by (symmetry; apply Z.ltb_ge; lia).
  replace (Z.of_nat k + 1) with (maxAttempts (retryConfig this)) by lia.
  destruct (stopped_at_facts this subject html fromEmail k w) as (Hc & Hp).
  eexists. split; [reflexivity |]. split; [rewrite Hc; lia | exact Hp].
Qed.

Lemma unavailable_is_transient : transientReply Scenario.unavailable.
Proof.
  exists (mkSendEmailResult None
            (Some (mkMailError "Service unavailable" (Some 503)))),
         (mkMailError "Service unavailable" (Some 503)).
  repeat split; reflexivity.
Qed.

Lemma sendWithRetry_terminal_error_stops_witness :
  let env := Scenario.envOf Scenario.flakyThenBadLogin in
  let this := AlertManager.constructor Scenario.documented in
  let w := Scenario.boot 0 (Some this) in
  exists w' : World,
    AlertManager.sendWithRetry env this "subject" "<p/>" JOB_FAILURE
      "alerts@yourcompany.com" w
    = (Returned (Err (deliveryFailed this JOB_FAILURE "Invalid login" 2)), w')
    /\ mailerCalls w' = 2%nat
    /\ drop (length (sleeps_of (trace w))) (sleeps_of (trace w')) = [1000].
Proof.
  intros env this w.
  apply (sendWithRetry_terminal_error_stops env this "subject" "<p/>"
           JOB_FAILURE "alerts@yourcompany.com" w 1
           (mkMailError "Invalid login" (Some 401))).
  - vm_compute. reflexivity.
  - intros i Hi. left. destruct i as [| i]; [| lia].
    exact unavailable_is_transient.
  - exists (mkSendEmailResult None (Some (mkMailError "Invalid login" (Some 401)))).
    repeat split; reflexivity.
Defined.

Lemma sendWithRetry_first_success_witness :
  let env := Scenario.envOf Scenario.thirdTimeLucky in
  let this := AlertManager.constructor Scenario.documented in
  let w := Scenario.boot 0 (Some this) in
  exists w' : World,
    AlertManager.sendWithRetry env this "subject" "<p/>" JOB_FAILURE
      "alerts@yourcompany.com" w
    = (Returned (Ok (mkEmailSent "m-42" (clock w'))), w')
    /\ mailerCalls w' = 3%nat
    /\ drop (length (sleeps_of (trace w))) (sleeps_of (trace w')) = [1000; 2000].
Proof.
  intros env this w.
  apply (sendWithRetry_first_success env this "subject" "<p/>"
           JOB_FAILURE "alerts@yourcompany.com" w 2 "m-42").
  - vm_compute. reflexivity.
  - intros i Hi. left. destruct i as [| [| i]]; [| | lia];
      exact unavailable_is_transient.
  - exists (mkSendEmailResult (Some (mkMailData "m-42")) None).
    repeat split; try reflexivity. discriminate.
Defined.

Lemma sendWithRetry_invalid_response_stops_witness :
  let env := Scenario.envOf Scenario.flakyThenNothing in
  let this := AlertManager.constructor Scenario.documented in
  let w := Scenario.boot 0 (Some this) in
  exists w' : World,
    AlertManager.sendWithRetry env this "subject" "<p/>" JOB_FAILURE
      "alerts@yourcompany.com" w
    = (Returned (Err (invalidResponse this JOB_FAILURE None)), w')
    /\ mailerCalls w' = 2%nat.
Proof.
  intros env this w.
  apply (sendWithRetry_invalid_response_stops env this "subject" "<p/>"
           JOB_FAILURE "alerts@yourcompany.com" w 1 None).
  - vm_compute. reflexivity.
  - intros i Hi. left. destruct i as [| i]; [| lia].
    exact unavailable_is_transient.
  - exists (mkSendEmailResult None None).
    repeat split; try reflexivity. now left.
Defined.

Lemma sendWithRetry_rejected_last_attempt_witness :
  let env := Scenario.envOf Scenario.alwaysThrows in
  let this := AlertManager.constructor Scenario.documented in
  let w := Scenario.boot 0 (Some this) in
  exists w' : World,
    AlertManager.sendWithRetry env this "subject" "<p/>" JOB_FAILURE
      "alerts@yourcompany.com" w
    = (Returned (Err (deliveryFailedAfterRetries this JOB_FAILURE
                        "socket hang up" 3)), w')
    /\ Z.of_nat (mailerCalls w') = 0 + 3
    /\ drop (length (sleeps_of (trace w))) (sleeps_of (trace w')) = [1000; 2000].
Proof.
  intros env this w.
  apply (sendWithRetry_rejected_last_attempt env this "subject" "<p/>"
           JOB_FAILURE "alerts@yourcompany.com" w 2 "socket hang up").
  - reflexivity.
  - intros i Hi. right. now exists "socket hang up".
  - reflexivity.
Defined.

(* ===================================================================== *)
(** ** More of [sendAlerts] and [sendCustomEmail] *)
(* ===================================================================== *)

(** X7: a template that throws makes [sendAlerts] fail with "Failed to
    render alert email template" and the thrown message; the renderer
    has been called once with the batch, the transport not at all, and
    nothing is retried or slept, whatever the retry policy. *)
Theorem sendAlerts_render_failure_is_final
        (env : Env) (this : AlertManager)
        (alerts : list Alert) (alertType : AlertType) (severity : AlertSeverity)
        (from : option string) (sender reason : string) (w : World) :
  resolvedSender this from = Some sender ->
  sender <> "" ->
  renderTemplate env alerts alertType severity = inr reason ->
  exists w' : World,
    AlertManager.sendAlerts env this alerts alertType severity from w
    = (Returned (Err (renderFailed this alertType reason)), w')
    /\ rendered_of (trace w') = (rendered_of (trace w) ++ [alerts])%list
    /\ sends_of (trace w') = sends_of (trace w)
    /\ sleeps_of (trace w') = sleeps_of (trace w)
    /\ mailerCalls w' = mailerCalls w
    /\ clock w' = clock w.
Proof.
  intros Hsender Hne Hrender.
  rewrite (sendAlerts_render_fails env this alerts alertType severity from
             sender reason w Hsender Hne Hrender).
  eexists. split; [reflexivity |]. simpl.
  rewrite !rendered_of_app, !sends_of_app, !sleeps_of_app. simpl.
  rewrite !app_nil_r. now repeat split.
Qed.

Lemma sendAlerts_render_failure_is_final_witness :
  let env := {| smtp := fun _ => Scenario.delivered "m-1";
                renderTemplate := Scenario.brokenTemplate;
                ALERT_THRESHOLDS := mkThresholds 5 10 |} in
  let this := AlertManager.constructor Scenario.documented in
  let alerts := [Scenario.jobFailure 0 "Digest generation failed"] in
  let w := Scenario.boot 0 (Some this) in
  exists w' : World,
    AlertManager.sendAlerts env this alerts JOB_FAILURE CRITICAL None w
    = (Returned (Err (renderFailed this JOB_FAILURE
                        "Objects are not valid as a React child")), w')
    /\ rendered_of (trace w') = (rendered_of (trace w) ++ [alerts])%list
    /\ sends_of (trace w') = sends_of (trace w)
    /\ sleeps_of (trace w') = sleeps_of (trace w)
    /\ mailerCalls w' = mailerCalls w
    /\ clock w' = clock w.
Proof.
  intros env this alerts w.
  apply (sendAlerts_render_failure_is_final env this alerts JOB_FAILURE
           CRITICAL None "alerts@yourcompany.com"
           "Objects are not valid as a React child" w).
  - reflexivity.
  - discriminate.
  - reflexivity.
Defined.

(** X8: [sendCustomEmail] with no sender in the parameters and none
    in the configuration, or with an empty one, returns the
    configuration failure for the alert type "CUSTOM" and the chosen
    recipient, and leaves the world as it was: the transport is not
    called. *)
Theorem sendCustomEmail_without_sender
        (env : Env) (this : AlertManager) (from to : option string)
        (subject html : string) (text : option string) (w : World) :
  resolvedSender this from = None \/ resolvedSender this from = Some "" ->
  AlertManager.sendCustomEmail env this from to subject html text w
  = (Returned (Err (noCustomSenderError this to)), w).
Proof.
  unfold resolvedSender, AlertManager.sendCustomEmail.
  intros [H | H]; rewrite H; reflexivity.
Qed.

Lemma sendCustomEmail_without_sender_witness :
  let this := AlertManager.constructor Scenario.withoutSender in
  let w := Scenario.boot 0 (Some this) in
  AlertManager.sendCustomEmail (Scenario.envOf (fun _ => Scenario.delivered "m-1"))
    this (Some "") (Some "ops@yourcompany.com") "subject" "<p/>" None w
  = (Returned (Err (noCustomSenderError this (Some "ops@yourcompany.com"))), w).
Proof.
  intros this w.
  apply (sendCustomEmail_without_sender
           (Scenario.envOf (fun _ => Scenario.delivered "m-1"))
           this (Some "") (Some "ops@yourcompany.com") "subject" "<p/>" None w).
  right. reflexivity.
Defined.

(** X9: when the transport replies to [sendCustomEmail] without an
    error, the result follows the reply's data: a message id, empty or
    not, comes back as the success stamped with the current time; no
    data comes back as "Failed to send custom email" without a
    message.  The one message sent goes to [to], or to the admin
    address when [to] is absent, with the given subject, body and
    text. *)
Theorem sendCustomEmail_reply_without_error
        (env : Env) (this : AlertManager) (from to : option string)
        (subject html : string) (text : option string) (sender : string)
        (w : World) (r : SendEmailResult) :
  resolvedSender this from = Some sender ->
  sender <> "" ->
  smtp env (mailerCalls w) = Resolves r ->
  res_error r = None ->
  let run := AlertManager.sendCustomEmail env this from to subject html text in
  eval run w
  = match res_data r with
    | Some data => Returned (Ok (mkEmailSent (data_id data) (clock w)))
    | None => Returned (Err (customEmailFailed this to None))
    end
  /\ drop (length (sends_of (trace w))) (sends_of (trace (exec run w)))
     = [(clock w,
         {| mail_from := sender;
            mail_to := nullish to (cfg_adminEmail (config this));
            mail_subject := subject;
            mail_html := Some html;
            mail_text := text |})].
Proof.
  intros Hsender Hne Hr He run. subst run.
  unfold resolvedSender in Hsender.
  unfold eval, exec, AlertManager.sendCustomEmail. rewrite Hsender.
  destruct sender as [| c sender]; [congruence |]. simpl.
  unfold bind, AlertManager.mailer_send. rewrite Hr, He.
  destruct (res_data r) as [data |]; simpl;
    rewrite sends_of_app, drop_app_length; now split.
Qed.

Lemma sendCustomEmail_reply_without_error_witness :
  let env := Scenario.envOf (fun _ => Scenario.delivered "") in
  let this := AlertManager.constructor Scenario.documented in
  let w := Scenario.boot 7 (Some this) in
  let run := AlertManager.sendCustomEmail env this None
               (Some "ops@yourcompany.com") "subject" "<p/>" (Some "text") in
  eval run w = Returned (Ok (mkEmailSent "" 7))
  /\ drop (length (sends_of (trace w))) (sends_of (trace (exec run w)))
     = [(7, {| mail_from := "alerts@yourcompany.com";
               mail_to := "ops@yourcompany.com";
               mail_subject := "subject";
               mail_html := Some "<p/>";
               mail_text := Some "text" |})].
Proof.
  intros env this w run.
  apply (sendCustomEmail_reply_without_error env this None
           (Some "ops@yourcompany.com") "subject" "<p/>" (Some "text")
           "alerts@yourcompany.com" w
           (mkSendEmailResult (Some (mkMailData "")) None)).
  - reflexivity.
  - discriminate.
  - reflexivity.
  - reflexivity.
Defined.

(* ===================================================================== *)
(** ** The singleton *)
(* ===================================================================== *)

(** X10: [initialize] installs a manager only when there is none: the
    first configuration wins.  It returns the installed manager, built
    from its configuration if none was there and the existing one
    otherwise, in which case the world does not change; any later
    [initialize], whatever its configuration, and [getInstance] return
    that same manager. *)
Theorem initialize_first_call_wins (config : AlertManagerConfig) (w : World) :
  exists (manager : AlertManager) (w' : World),
    AlertManager.initialize config w = (Returned manager, w')
    /\ instance w' = Some manager
    /\ (instance w = None -> manager = AlertManager.constructor config)
    /\ (forall existing, instance w = Some existing ->
                         manager = existing /\ w' = w)
    /\ (forall other : AlertManagerConfig,
           AlertManager.initialize other w' = (Returned manager, w'))
    /\ AlertManager.getInstance w' = (Returned manager, w')
    /\ clock w' = clock w
    /\ failureHistory w' = failureHistory w
    /\ mailerCalls w' = mailerCalls w
    /\ trace w' = trace w.
Proof.
  unfold AlertManager.initialize, AlertManager.getInstance, bind, gets, modify,
    ret.
  destruct (instance w) as [existing |] eqn:Hinst; simpl.
  - exists existing, w. rewrite Hinst.
    repeat split; try reflexivity; try congruence.
  - eexists _, _. split; [reflexivity |]. simpl.
    repeat split; try reflexivity; congruence.
Qed.

(** X11: after [reset] there is no manager: [getInstance] throws,
    [isInitialized] answers [false], and the next [initialize] installs
    a manager built from its own configuration.  [reset] changes nothing
    else; the failure history of the detector in particular stays. *)
Theorem reset_then_initialize (config : AlertManagerConfig) (w : World) :
  let w' := exec AlertManager.reset w in
  eval AlertManager.getInstance w'
  = Thrown "AlertManager not initialized. Call AlertManager.initialize(config) first."
  /\ AlertManager.isInitialized w' = (Returned false, w')
  /\ eval (AlertManager.initialize config) w'
     = Returned (AlertManager.constructor config)
  /\ instance (exec (AlertManager.initialize config) w')
     = Some (AlertManager.constructor config)
  /\ failureHistory w' = failureHistory w
  /\ clock w' = clock w
  /\ trace w' = trace w.
Proof. now repeat split. Qed.

(** X12: the subject line tells severity and category apart: two
    subjects are equal only for the same severity and the same alert
    type. *)
Theorem getAlertSubject_injective
        (severity1 severity2 : AlertSeverity) (type1 type2 : AlertType) :
  AlertManager.getAlertSubject severity1 type1
  = AlertManager.getAlertSubject severity2 type2 ->
  severity1 = severity2 /\ type1 = type2.
Proof.
  destruct severity1, severity2, type1, type2; intros H;
    first [ now split | vm_compute in H; discriminate H ].
Qed.

Lemma getAlertSubject_injective_witness :
  HIGH = HIGH /\ REPEATED_FAILURES = REPEATED_FAILURES.
Proof.
  apply (getAlertSubject_injective HIGH HIGH REPEATED_FAILURES REPEATED_FAILURES).
  reflexivity.
Defined.

(* ===================================================================== *)
(** ** The Nodemailer client *)
(* ===================================================================== *)

Lemma mentions_iff (word message : string) :
  mentions word message
  <-> JsString.includes (JsString.toLowerCase message) word = true.
Proof. unfold mentions. symmetry. apply includes_spec. Qed.

Lemma authFailure_iff (message : string) :
  authFailure message
  <-> JsString.includes (JsString.toLowerCase message) "auth"
      || JsString.includes (JsString.toLowerCase message) "credentials" = true.
Proof. unfold authFailure. rewrite !mentions_iff, orb_true_iff. tauto. Qed.

Lemma rateLimited_iff (message : string) :
  rateLimited message
  <-> JsString.includes (JsString.toLowerCase message) "rate"
      || JsString.includes (JsString.toLowerCase message) "too many" = true.
Proof. unfold rateLimited. rewrite !mentions_iff, orb_true_iff. tauto. Qed.

Lemma connectionTrouble_iff (message : string) :
  connectionTrouble message
  <-> JsString.includes (JsString.toLowerCase message) "econnrefused"
      || JsString.includes (JsString.toLowerCase message) "timeout"
      || JsString.includes (JsString.toLowerCase message) "network" = true.
Proof.
  unfold connectionTrouble. rewrite !mentions_iff, !orb_true_iff. tauto.
Qed.

Lemma badRecipient_iff (message : string) :
  badRecipient message
  <-> JsString.includes (JsString.toLowerCase message) "recipient"
      || JsString.includes (JsString.toLowerCase message) "address" = true.
Proof. unfold badRecipient. rewrite !mentions_iff, orb_true_iff. tauto. Qed.

(** X13: [getErrorStatusCode] has no code for a thrown value that is
    not an [Error]; for an [Error] it answers by the first family its
    lower-cased message falls in: 401 for "auth" or "credentials", else
    429 for "rate" or "too many", else 503 for "econnrefused",
    "timeout" or "network", else 400 for "recipient" or "address", and
    500 for everything else. *)
Theorem getErrorStatusCode_by_priority (thrown : NodemailerClient.ThrownValue) :
  (NodemailerClient.getErrorStatusCode thrown = None
   <-> exists text, thrown = NodemailerClient.OtherValue text)
  /\ (forall message,
        thrown = NodemailerClient.ErrorObject message ->
        let code := NodemailerClient.getErrorStatusCode thrown in
        (code = Some 401 <-> authFailure message)
        /\ (code = Some 429 <-> ~ authFailure message /\ rateLimited message)
        /\ (code = Some 503
            <-> ~ authFailure message /\ ~ rateLimited message
                /\ connectionTrouble message)
        /\ (code = Some 400
            <-> ~ authFailure message /\ ~ rateLimited message
                /\ ~ connectionTrouble message /\ badRecipient message)
        /\ (code = Some 500
            <-> ~ authFailure message /\ ~ rateLimited message
                /\ ~ connectionTrouble message /\ ~ badRecipient message)).
Proof.
  split.
  - destruct thrown as [message | text]; simpl.
    + split; [| intros [text H]; discriminate].
      repeat match goal with |- context [if ?b then _ else _] => destruct b end;
        discriminate.
    + split; [intros _; now exists text | reflexivity].
  - intros message -> code. subst code.
    rewrite authFailure_iff, rateLimited_iff, connectionTrouble_iff,
      badRecipient_iff.
    unfold NodemailerClient.getErrorStatusCode.
    set (msg := JsString.toLowerCase message).
    destruct (JsString.includes msg "auth" || JsString.includes msg "credentials");
      destruct (JsString.includes msg "rate" || JsString.includes msg "too many");
      destruct (JsString.includes msg "econnrefused"
                || JsString.includes msg "timeout"
                || JsString.includes msg "network");
      destruct (JsString.includes msg "recipient"
                || JsString.includes msg "address");
      repeat split; intros; try discriminate; try tauto;
      repeat match goal with H : _ /\ _ |- _ => destruct H end;
      try congruence.
Qed.

(** X14: which refusals of the transporter [AlertManager] retries.  The
    error that [send] reports for a thrown value is transient exactly
    when its message mentions "timeout", "network" or "econnrefused",
    whatever code it was given, or when it is an [Error] that mentions
    "rate" or "too many" and neither "auth" nor "credentials". *)
Theorem nodemailer_error_transient_iff (thrown : NodemailerClient.ThrownValue) :
  AlertManager.isTransientError (reportedError thrown) = true
  <-> connectionTrouble (NodemailerClient.errorMessage thrown)
      \/ (exists message,
             thrown = NodemailerClient.ErrorObject message
             /\ ~ authFailure message /\ rateLimited message).
Proof.
  unfold AlertManager.isTransientError, reportedError. simpl.
  rewrite connectionTrouble_iff.
  destruct thrown as [message | text]; simpl.
  - set (msg := JsString.toLowerCase message).
    assert ((exists message0,
               NodemailerClient.ErrorObject message
               = NodemailerClient.ErrorObject message0
               /\ ~ authFailure message0 /\ rateLimited message0)
            <-> JsString.includes msg "auth"
                || JsString.includes msg "credentials" = false
                /\ JsString.includes msg "rate"
                   || JsString.includes msg "too many" = true) as ->.
    { split.
      - intros (m & Hm & Hauth & Hrate). injection Hm as <-.
        rewrite authFailure_iff in Hauth. rewrite rateLimited_iff in Hrate.
        fold msg in Hauth, Hrate. split; [| exact Hrate].
        now destruct (JsString.includes msg "auth"
                      || JsString.includes msg "credentials").
      - intros [Hauth Hrate]. exists message. split; [reflexivity |].
        rewrite authFailure_iff, rateLimited_iff. fold msg.
        split; [congruence | exact Hrate]. }
    destruct (JsString.includes msg "auth" || JsString.includes msg "credentials");
      destruct (JsString.includes msg "rate" || JsString.includes msg "too many");
      destruct (JsString.includes msg "econnrefused");
      destruct (JsString.includes msg "timeout");
      destruct (JsString.includes msg "network");
      destruct (JsString.includes msg "recipient"
                || JsString.includes msg "address");
      simpl; intuition congruence.
  - set (msg := JsString.toLowerCase text).
    destruct (JsString.includes msg "econnrefused");
      destruct (JsString.includes msg "timeout");
      destruct (JsString.includes msg "network");
      simpl; split; try tauto; try discriminate;
      intros [H | (m & Hm & _)]; discriminate.
Qed.

Example nodemailer_auth_timeout_is_retried :
  let thrown := NodemailerClient.ErrorObject "Authentication timeout" in
  NodemailerClient.getErrorStatusCode thrown = Some 401
  /\ AlertManager.isTransientError (reportedError thrown) = true.
Proof. split; reflexivity. Qed.

Section NodemailerBacked.

Context (env : Env) (transporter : nat -> NodemailerClient.SendMailOutcome).
Context (this : AlertManager).
Context (subject html : string) (alertType : AlertType) (fromEmail : string).

Hypothesis Hmailer : forall n, smtp env n = NodemailerClient.mailer transporter n.

(** With this client as the mailer no send rejects, so the loop never
    ends in its [catch] branch. *)
Lemma for_each_never_after_retries (indices : list Z) :
  forall (w w' : World) (failure : AlertError),
    for_each indices
      (AlertManager.sendAttempt env this subject html alertType fromEmail)
      (ret (Err (fallbackFailure this alertType))) w
    = (Returned (Err failure), w') ->
    err_message failure = "Failed to send alert email"
    \/ err_message failure = "Invalid response from mailer".
Proof.
  induction indices as [| a indices IH]; intros w w' failure Hrun.
  - injection Hrun as <- _. now left.
  - simpl in Hrun. unfold bind in Hrun. rewrite sendAttempt_cases in Hrun.
    rewrite Hmailer in Hrun. unfold NodemailerClient.mailer in Hrun.
    destruct (res_error (NodemailerClient.send (transporter (mailerCalls w))))
      as [error |].
    + destruct (negb (AlertManager.isTransientError error)
                || (a =? maxAttempts (retryConfig this) - 1)).
      * injection Hrun as <- _. now left.
      * eapply IH. exact Hrun.
    + destruct (res_data (NodemailerClient.send (transporter (mailerCalls w))))
        as [data |].
      * destruct (JsString.truthy (data_id data)).
        -- discriminate.
        -- injection Hrun as <- _. now right.
      * injection Hrun as <- _. now right.
Qed.

End NodemailerBacked.

(** X15: [NodemailerClient.send] turns every refusal of the
    transporter into a result, so an [AlertManager] whose mailer is
    this client never reports "Failed to send alert email after
    retries": every failure of [sendWithRetry] comes from a classified
    transport error, an invalid response or an empty retry budget. *)
Theorem nodemailer_backed_never_after_retries
        (env : Env) (transporter : nat -> NodemailerClient.SendMailOutcome)
        (this : AlertManager) (subject html : string)
        (alertType : AlertType) (fromEmail : string)
        (w w' : World) (failure : AlertError) :
  (forall n, smtp env n = NodemailerClient.mailer transporter n) ->
  AlertManager.sendWithRetry env this subject html alertType fromEmail w
  = (Returned (Err failure), w') ->
  err_message failure <> "Failed to send alert email after retries"
  /\ (err_message failure = "Failed to send alert email"
      \/ err_message failure = "Invalid response from mailer").
Proof.
  intros Hmailer Hrun.
  assert (err_message failure = "Failed to send alert email"
          \/ err_message failure = "Invalid response from mailer") as Hcases
    by exact (for_each_never_after_retries env transporter this subject html
                alertType fromEmail Hmailer _ w w' failure Hrun).
  split; [| exact Hcases].
  destruct Hcases as [-> | ->]; discriminate.
Qed.

Lemma nodemailer_backed_never_after_retries_witness :
  let env := Scenario.nodemailerEnv (Scenario.refusing "connect ETIMEDOUT: timeout") in
  let this := AlertManager.constructor Scenario.documented in
  let w := Scenario.boot 0 (Some this) in
  let run := AlertManager.sendWithRetry env this "subject" "<p/>" JOB_FAILURE
               "alerts@yourcompany.com" in
  err_message (deliveryFailed this JOB_FAILURE "connect ETIMEDOUT: timeout" 3)
  <> "Failed to send alert email after retries"
  /\ (err_message (deliveryFailed this JOB_FAILURE "connect ETIMEDOUT: timeout" 3)
      = "Failed to send alert email"
      \/ err_message (deliveryFailed this JOB_FAILURE "connect ETIMEDOUT: timeout" 3)
         = "Invalid response from mailer").
Proof.
  intros env this w run.
  apply (nodemailer_backed_never_after_retries env
           (Scenario.refusing "connect ETIMEDOUT: timeout") this "subject"
           "<p/>" JOB_FAILURE "alerts@yourcompany.com" w (exec run w)).
  - reflexivity.
  - vm_compute. reflexivity.
Defined.

(* ===================================================================== *)
(** ** More of the failure detector *)
(* ===================================================================== *)

Lemma recentSince_all (cutoff : Z) (timestamps : list Z) :
  Forall (fun t => cutoff <= t)
         (FailureDetector.recentSince cutoff timestamps).
Proof.
  unfold FailureDetector.recentSince. apply Forall_forall. intros t Ht.
  now apply list_elem_of_filter in Ht as [Ht _].
Qed.

Lemma recentSince_id (cutoff : Z) (timestamps : list Z) :
  Forall (fun t => cutoff <= t) timestamps ->
  FailureDetector.recentSince cutoff timestamps = timestamps.
Proof.
  unfold FailureDetector.recentSince.
  induction 1 as [| t ts Ht _ IH]; [reflexivity |].
  rewrite filter_cons, decide_True by exact Ht. now rewrite IH.
Qed.

Lemma recentSince_antitone (cutoff1 cutoff2 : Z) (timestamps : list Z) :
  cutoff1 <= cutoff2 ->
  (length (FailureDetector.recentSince cutoff2 timestamps)
   <= length (FailureDetector.recentSince cutoff1 timestamps))%nat.
Proof.
  intros Hle. unfold FailureDetector.recentSince.
  induction timestamps as [| t ts IH]; [reflexivity |].
  rewrite !filter_cons.
  destruct (decide (cutoff2 <= t)) as [H2 | H2].
  - rewrite decide_True by lia. simpl. lia.
  - destruct (decide (cutoff1 <= t)); simpl; lia.
Qed.

(** The history a call of [trackJobFailure] leaves: the trimmed window
    of the worker (below the threshold, or when [getInstance] throws),
    or its reset. *)
Lemma trackJobFailure_cases
      (env : Env) (jobId workerName error : string) (w : World) :
  let w' := exec (FailureDetector.trackJobFailure env jobId workerName error) w in
  failureHistory w'
  = <[workerName := windowAfter env w workerName]> (failureHistory w)
  \/ failureHistory w' = <[workerName := []]> (failureHistory w).
Proof.
  intros w'. subst w'. unfold exec.
  destruct (Z_lt_le_dec (Z.of_nat (length (windowAfter env w workerName)))
              (failuresInWindow (ALERT_THRESHOLDS env))) as [Hbelow | Hreach].
  - rewrite trackJobFailure_below by exact Hbelow. now left.
  - destruct (instance w) as [manager |] eqn:Hmgr.
    + destruct (trackJobFailure_at_threshold env jobId workerName error manager w
                  Hreach Hmgr) as (r & w1 & _ & Hrun & _).
      rewrite Hrun. now right.
    + rewrite trackJobFailure_uninitialized by assumption. now left.
Qed.

(** X16: workers do not interfere: recording a failure of one worker,
    however the call ends, leaves the stored timestamps of every other
    worker as they were. *)
Theorem trackJobFailure_other_workers_untouched
        (env : Env) (jobId workerName error other : string) (w : World) :
  workerName <> other ->
  let w' := exec (FailureDetector.trackJobFailure env jobId workerName error) w in
  failureHistory w' !! other = failureHistory w !! other
  /\ stored w' other = stored w other.
Proof.
  intros Hne w'.
  assert (failureHistory w' !! other = failureHistory w !! other) as Hsame.
  { destruct (trackJobFailure_cases env jobId workerName error w)
      as [H | H]; fold w' in H; rewrite H;
      now apply lookup_insert_ne. }
  split; [exact Hsame |]. unfold stored. now rewrite Hsame.
Qed.

Lemma trackJobFailure_other_workers_untouched_witness :
  let env := Scenario.envOf (fun _ => Scenario.delivered "m-1") in
  let manager := AlertManager.constructor Scenario.documented in
  let w := Scenario.fourFailures (Some manager) in
  let w' := exec (FailureDetector.trackJobFailure env "job-9" "worker-B" "boom") w in
  failureHistory w' !! "worker-A" = failureHistory w !! "worker-A"
  /\ stored w' "worker-A" = stored w "worker-A".
Proof.
  intros env manager w.
  apply (trackJobFailure_other_workers_untouched env "job-9" "worker-B" "boom"
           "worker-A" w).
  discriminate.
Defined.

(** X17: when the threshold is reached and no [AlertManager] has been
    initialized, [trackJobFailure] throws the "not initialized" error of
    [getInstance] after it has stored the trimmed window: nothing is
    dispatched, the history is not reset, and the count read at that
    moment is at or above the threshold. *)
Theorem trackJobFailure_uninitialized_keeps_window
        (env : Env) (jobId workerName error : string) (w : World) :
  instance w = None ->
  failuresInWindow (ALERT_THRESHOLDS env)
  <= Z.of_nat (length (windowAfter env w workerName)) ->
  exists w' : World,
    FailureDetector.trackJobFailure env jobId workerName error w
    = (Thrown "AlertManager not initialized. Call AlertManager.initialize(config) first.",
       w')
    /\ stored w' workerName = windowAfter env w workerName
    /\ trace w' = trace w
    /\ exists n : nat,
         FailureDetector.getFailureCount env workerName w' = (Returned n, w')
         /\ failuresInWindow (ALERT_THRESHOLDS env) <= Z.of_nat n.
Proof.
  intros Hnone Hreach.
  rewrite trackJobFailure_uninitialized by assumption.
  eexists. split; [reflexivity |].
  rewrite stored_after_set. split; [reflexivity |]. split; [reflexivity |].
  rewrite getFailureCount_run, stored_after_set. simpl.
  eexists. split; [reflexivity |].
  rewrite recentSince_id; [exact Hreach |].
  unfold windowAfter. apply recentSince_all.
Qed.

Lemma trackJobFailure_uninitialized_keeps_window_witness :
  let env := Scenario.envOf (fun _ => Scenario.delivered "m-1") in
  let w := Scenario.fourFailures None in
  exists w' : World,
    FailureDetector.trackJobFailure env "job-5" "worker-A" "boom" w
    = (Thrown "AlertManager not initialized. Call AlertManager.initialize(config) first.",
       w')
    /\ stored w' "worker-A" = windowAfter env w "worker-A"
    /\ trace w' = trace w
    /\ exists n : nat,
         FailureDetector.getFailureCount env "worker-A" w' = (Returned n, w')
         /\ 5 <= Z.of_nat n.
Proof.
  intros env w.
  apply (trackJobFailure_uninitialized_keeps_window env "job-5" "worker-A"
           "boom" w).
  - reflexivity.
  - vm_compute. discriminate.
Defined.

(** X18: eviction.  After [trackJobFailure], however the call ends, no
    timestamp stored for the worker is older than the time window
    counted back from the moment of the call. *)
Theorem trackJobFailure_evicts_old_failures
        (env : Env) (jobId workerName error : string) (w : World) :
  Forall (fun t => clock w - FailureDetector.timeWindowMs env <= t)
         (stored (exec (FailureDetector.trackJobFailure env jobId workerName
                          error) w)
                 workerName).
Proof.
  unfold stored.
  destruct (trackJobFailure_cases env jobId workerName error w)
    as [H | H]; rewrite H, lookup_insert_eq; simpl.
  - unfold windowAfter. apply recentSince_all.
  - constructor.
Qed.

(** X19: with the history left alone, the count of a worker can only
    fall as time passes: read at a later time it is never larger. *)
Theorem getFailureCount_never_grows_with_time
        (env : Env) (workerName : string) (w : World) (earlier later : Z) :
  earlier <= later ->
  exists n1 n2 : nat,
    eval (FailureDetector.getFailureCount env workerName) (at_time earlier w)
    = Returned n1
    /\ eval (FailureDetector.getFailureCount env workerName) (at_time later w)
       = Returned n2
    /\ (n2 <= n1)%nat.
Proof.
  intros Hle. unfold eval. rewrite !getFailureCount_run. simpl.
  eexists _, _. split; [reflexivity |]. split; [reflexivity |].
  change (stored (at_time later w) workerName) with (stored w workerName).
  change (stored (at_time earlier w) workerName) with (stored w workerName).
  apply recentSince_antitone. lia.
Qed.

Lemma getFailureCount_never_grows_with_time_witness :
  let env := Scenario.envOf (fun _ => Scenario.delivered "m-1") in
  let w := Scenario.fourFailures None in
  exists n1 n2 : nat,
    eval (FailureDetector.getFailureCount env "worker-A") (at_time 600000 w)
    = Returned n1
    /\ eval (FailureDetector.getFailureCount env "worker-A") (at_time 602000 w)
       = Returned n2
    /\ (n2 <= n1)%nat.
Proof.
  intros env w.
  apply (getFailureCount_never_grows_with_time env "worker-A" w 600000 602000).
  lia.
Defined.

(** X20: [resetFailureHistory] removes the worker's entry: its count is
    0 at any time afterwards, while the entries of all other workers
    stay as they were. *)
Theorem resetFailureHistory_clears_one_worker
        (env : Env) (workerName : string) (w : World) :
  let w' := exec (FailureDetector.resetFailureHistory workerName) w in
  failureHistory w' !! workerName = None
  /\ (forall t : Z,
        FailureDetector.getFailureCount env workerName (at_time t w')
        = (Returned O, at_time t w'))
  /\ (forall other : string,
        other <> workerName ->
        failureHistory w' !! other = failureHistory w !! other).
Proof.
  intros w'. subst w'. unfold exec. simpl. split; [apply lookup_delete_eq |].
  split.
  - intros t. rewrite getFailureCount_run. unfold stored. simpl.
    now rewrite lookup_delete_eq.
  - intros other Hne. now apply lookup_delete_ne.
Qed.

(** X21: [clearAll] forgets every worker: whatever was recorded, every
    count is 0 at any time afterwards. *)
Theorem clearAll_resets_every_count
        (env : Env) (workerName : string) (t : Z) (w : World) :
  let w' := exec FailureDetector.clearAll w in
  failureHistory w' = ∅
  /\ FailureDetector.getFailureCount env workerName (at_time t w')
     = (Returned O, at_time t w').
Proof.
  intros w'. subst w'. unfold exec. simpl. split; [reflexivity |].
  rewrite getFailureCount_run. unfold stored. simpl.
  now rewrite lookup_empty.
Qed.

Lemma reportFailures_burst_escalates_once_witness :
  let env := Scenario.envOf (fun _ => Scenario.delivered "m-1") in
  let manager := AlertManager.constructor Scenario.documented in
  let w := Scenario.boot 0 (Some manager) in
  let w' := reportFailures env "job" "worker-A" "OpenAI API timeout"
              ([0; 10000; 20000; 30000] ++ [40000]) w in
  drop (length (dispatched_of (trace w))) (dispatched_of (trace w'))
  = [(40000,
      [FailureDetector.repeatedFailuresAlert env "job" "worker-A"
         "OpenAI API timeout" 40000
         (length ([0; 10000; 20000; 30000] ++ [40000]))])]
  /\ stored w' "worker-A" = []
  /\ forall t : Z,
       eval (FailureDetector.getFailureCount env "worker-A") (at_time t w')
       = Returned O.
Proof.
  intros env manager w.
  apply (reportFailures_burst_escalates_once env "job" "worker-A"
           "OpenAI API timeout" manager 0 [0; 10000; 20000; 30000] 40000 w).
  - reflexivity.
  - reflexivity.
  - change (Forall (fun t => 0 <= t <= 0 + 600000)
                   [0; 10000; 20000; 30000; 40000]).
    repeat (constructor; [lia |]). constructor.
  - reflexivity.
Defined.

Lemma trackJobFailure_history_behind_clock_witness :
  let env := Scenario.envOf (fun _ => Scenario.delivered "m-1") in
  historyBehindClock
    (exec (FailureDetector.trackJobFailure env "job-1" "worker-A" "boom")
          (Scenario.boot 5 None)).
Proof.
  intros env.
  apply (trackJobFailure_history_behind_clock env "job-1" "worker-A" "boom"
           (Scenario.boot 5 None)).
  intros workerName timestamps Hlookup. simpl in Hlookup.
  rewrite lookup_empty in Hlookup. discriminate.
Defined.

(* ===================================================================== *)
(** ** Paginated queries *)
(* ===================================================================== *)

(** X24: for integer [limit] and [page] on which the constructor's
    arithmetic is exact (safe integers, the offset included), a
    paginated query never has [limit] or [page] at 0: an absent or zero
    limit becomes 20, an absent or zero page becomes 1.  For a requested
    page that is absent or not negative, the offset is
    [(page - 1) * limit] in the resolved fields; a negative requested
    page is kept as it is, with offset 0. *)
Theorem paginated_offset_matches_page
        {OrderBy Filter : Type}
        (props : PaginatedQueryBase.Params OrderBy Filter)
        (q : PaginatedQueryBase.Query OrderBy Filter) :
  PaginatedQueryBase.constructor props = Some q ->
  PaginatedQueryBase.limit q <> 0
  /\ PaginatedQueryBase.page q <> 0
  /\ (PaginatedQueryBase.props_limit props = None
      \/ PaginatedQueryBase.props_limit props = Some 0 ->
      PaginatedQueryBase.limit q = 20)
  /\ (PaginatedQueryBase.props_page props = None
      \/ PaginatedQueryBase.props_page props = Some 0 ->
      PaginatedQueryBase.page q = 1 /\ PaginatedQueryBase.offset q = 0)
  /\ (forall p, PaginatedQueryBase.props_page props = Some p -> 0 <= p ->
                PaginatedQueryBase.offset q
                = (PaginatedQueryBase.page q - 1) * PaginatedQueryBase.limit q)
  /\ (forall p, PaginatedQueryBase.props_page props = Some p -> p < 0 ->
                PaginatedQueryBase.page q = p
                /\ PaginatedQueryBase.offset q = 0).
Proof.
  unfold PaginatedQueryBase.constructor.
  destruct (_ && _ && _); [| discriminate].
  intros Hq. injection Hq as <-. simpl.
  unfold PaginatedQueryBase.or_default.
  destruct (PaginatedQueryBase.props_limit props) as [l |];
    destruct (PaginatedQueryBase.props_page props) as [p |];
    repeat match goal with
           | |- context [?x =? 0] => destruct (Z.eqb_spec x 0)
           | |- context [1 <? ?x] => destruct (Z.ltb_spec 1 x)
           end; simpl;
    repeat split; intros;
    repeat match goal with
           | H : _ \/ _ |- _ => destruct H
           | H : Some _ = Some _ |- _ => injection H as H
           end;
    subst; try discriminate; try congruence; try lia;
    match goal with
    | H1 : ?p <= 1, H2 : 0 <= ?p, H3 : ?p <> 0 |- _ =>
        replace p with 1 by lia; lia
    end.
Qed.

Lemma paginated_offset_matches_page_witness :
  let q := {| PaginatedQueryBase.limit := 50;
              PaginatedQueryBase.offset := 100;
              PaginatedQueryBase.orderBy := @None (list unit);
              PaginatedQueryBase.filters := @None (list unit);
              PaginatedQueryBase.search := Some "timeout";
              PaginatedQueryBase.page := 3 |} in
  PaginatedQueryBase.limit q <> 0
  /\ PaginatedQueryBase.page q <> 0
  /\ (Some 50 = None \/ Some 50 = Some 0 -> PaginatedQueryBase.limit q = 20)
  /\ (Some 3 = None \/ Some 3 = Some 0 ->
      PaginatedQueryBase.page q = 1 /\ PaginatedQueryBase.offset q = 0)
  /\ (forall p, Some 3 = Some p -> 0 <= p ->
                PaginatedQueryBase.offset q
                = (PaginatedQueryBase.page q - 1) * PaginatedQueryBase.limit q)
  /\ (forall p, Some 3 = Some p -> p < 0 ->
                PaginatedQueryBase.page q = p
                /\ PaginatedQueryBase.offset q = 0).
Proof.
  intros q.
  apply (paginated_offset_matches_page
           (PaginatedQueryBase.mkParams (Some 50) (Some 3) None None
              (Some "timeout")) q).
  reflexivity.
Defined.

(** Beyond the safe integers the model is silent. *)
Example paginated_outside_exact_arithmetic :
  PaginatedQueryBase.constructor
    (PaginatedQueryBase.mkParams (OrderBy := unit) (Filter := unit)
       (Some 134217729) (Some 134217730) None None None)
  = None.
Proof. reflexivity. Qed.

(** X25: consecutive pages tile the results.  For integer [limit] and
    page [p >= 1] on which the constructor's arithmetic is exact for
    both pages, the offset of page [p + 1] is the offset of page [p]
    plus the resolved limit, which is the same for both; and page 1
    starts at offset 0. *)
Theorem paginated_pages_tile
        {OrderBy Filter : Type}
        (limit : option Z) (orderBy : option (list OrderBy))
        (filters : option (list Filter)) (search : option string) (p : Z)
        (this next : PaginatedQueryBase.Query OrderBy Filter) :
  1 <= p ->
  PaginatedQueryBase.constructor
    (PaginatedQueryBase.mkParams limit (Some p) orderBy filters search)
  = Some this ->
  PaginatedQueryBase.constructor
    (PaginatedQueryBase.mkParams limit (Some (p + 1)) orderBy filters search)
  = Some next ->
  PaginatedQueryBase.offset next
  = PaginatedQueryBase.offset this + PaginatedQueryBase.limit this
  /\ PaginatedQueryBase.limit next = PaginatedQueryBase.limit this
  /\ (p = 1 -> PaginatedQueryBase.offset this = 0).
Proof.
  intros Hp. unfold PaginatedQueryBase.constructor. simpl.
  destruct (_ && _ && _); [| discriminate].
  destruct (_ && _ && _); [| discriminate].
  intros Hthis Hnext. injection Hthis as <-. injection Hnext as <-. simpl.
  split; [| split; [reflexivity |]].
  - destruct (Z.eqb_spec (p + 1) 0); [lia |].
    destruct (Z.ltb_spec 1 (p + 1)); [| lia].
    destruct (Z.eqb_spec p 0); [lia |].
    set (l := PaginatedQueryBase.or_default limit 20).
    destruct (Z.ltb_spec 1 p); simpl; [lia |].
    replace p with 1 by lia. lia.
  - intros ->. reflexivity.
Qed.

Lemma paginated_pages_tile_witness :
  let query page offset :=
    {| PaginatedQueryBase.limit := 50;
       PaginatedQueryBase.offset := offset;
       PaginatedQueryBase.orderBy := @None (list unit);
       PaginatedQueryBase.filters := @None (list unit);
       PaginatedQueryBase.search := None;
       PaginatedQueryBase.page := page |} in
  PaginatedQueryBase.offset (query 4 150)
  = PaginatedQueryBase.offset (query 3 100)
    + PaginatedQueryBase.limit (query 3 100)
  /\ PaginatedQueryBase.limit (query 4 150)
     = PaginatedQueryBase.limit (query 3 100)
  /\ (3 = 1 -> PaginatedQueryBase.offset (query 3 100) = 0).
Proof.
  intros query.
  apply (paginated_pages_tile (Some 50) None None None 3
           (query 3 100) (query 4 150)).
  - lia.
  - reflexivity.
  - reflexivity.
Defined.

(* ===================================================================== *)
(** ** [sendAlerts] from end to end *)
(* ===================================================================== *)

(** X26: whatever the renderer and the transport do, [sendAlerts]
    returns a result and never throws; it calls the renderer at most
    once and the transport at most [maxAttempts] times, and it touches
    neither the singleton nor the failure history. *)
Theorem sendAlerts_effects_are_bounded
        (env : Env) (this : AlertManager)
        (alerts : list Alert) (alertType : AlertType) (severity : AlertSeverity)
        (from : option string) (w : World) :
  exists (r : SendResult) (w' : World) (n : nat),
    AlertManager.sendAlerts env this alerts alertType severity from w
    = (Returned r, w')
    /\ mailerCalls w' = (mailerCalls w + n)%nat
    /\ Z.of_nat n <= Z.max 0 (maxAttempts (retryConfig this))
    /\ (length (rendered_of (trace w')) <= length (rendered_of (trace w)) + 1)%nat
    /\ instance w' = instance w
    /\ failureHistory w' = failureHistory w.
Proof.
  destruct (resolvedSender this from) as [sender |] eqn:Hsender.
  2: { rewrite sendAlerts_no_sender by now left.
       eexists _, _, O. split; [reflexivity |]. simpl.
       rewrite rendered_of_app, length_app. simpl. repeat split; lia. }
  destruct (string_dec sender "") as [-> | Hne].
  { rewrite sendAlerts_no_sender by now right.
    eexists _, _, O. split; [reflexivity |]. simpl.
    rewrite rendered_of_app, length_app. simpl. repeat split; lia. }
  destruct (renderTemplate env alerts alertType severity) as [html | reason]
    eqn:Hrender.
  - rewrite (sendAlerts_reaches_retry env this _ _ _ _ _ _ w Hsender Hne Hrender).
    set (w0 := emit (EvRender alerts)
                 (emit (EvSendAlerts alerts alertType severity) w)).
    destruct (sendWithRetry_inv env this
                (AlertManager.getAlertSubject severity alertType) html
                alertType sender w0)
      as (r & w' & s & Hrun & Hinst & Hhist & _ & Hrend & _).
    destruct (for_each_accounting env this
                (AlertManager.getAlertSubject severity alertType) html
                alertType sender (seqZ 0 (maxAttempts (retryConfig this))) w0)
      as (r2 & w2 & pauses & n & Hrun2 & Hcalls & Hn & _).
    change (AlertManager.sendWithRetry env this
              (AlertManager.getAlertSubject severity alertType) html alertType
              sender w0 = (Returned r2, w2)) in Hrun2.
    rewrite Hrun in Hrun2. injection Hrun2 as <- <-.
    exists r, w', n. split; [exact Hrun |].
    rewrite length_seqZ in Hn. subst w0.
    simpl in Hcalls, Hrend, Hinst, Hhist.
    rewrite Hrend, !rendered_of_app, !length_app. simpl.
    repeat split; try assumption; lia.
  - rewrite (sendAlerts_render_fails env this _ _ _ _ _ _ w Hsender Hne Hrender).
    eexists _, _, O. split; [reflexivity |]. simpl.
    rewrite !rendered_of_app, !length_app. simpl. repeat split; lia.
Qed.
